(** * VGA test-pattern generator (amaranth_boards/test/vga.py)

    A shallow embedding of the synchronous logic described by [RGBOn],
    [LineGen], [VScanGen] and [VGA], together with the construction-time
    arithmetic of [VGA.__init__] and [VGA.elaborate].

    Registers are integers ([Z]) together with the truncation an assignment
    to a fixed-width signal performs; one call of a [next] function is one
    rising clock edge of the [sync] domain; combinational outputs are
    functions of the current register values and inputs.

    Python floats are represented by exact rationals ([Q]).  The only float
    operations of the source are one division, the decimal rounding
    [round(x, 4)], products of the rounded ratio with small integer
    constants, and [round] to an integer; [scaled_products_never_tie] shows
    that these roundings are never decided by a tie. *)

From Stdlib Require Import ZArith QArith Qround Bool List String Lia Lqa.
Import ListNotations.
Local Open Scope Z_scope.

(** ** Semantics of the Amaranth and Python primitives the file uses *)

Module Amaranth.

(** Width of [Signal(range(0, n))]: the bits needed for [n - 1]; an empty
    range and the range holding only 0 have width 0. *)
Definition range_width (n : Z) : Z :=
  if n <=? 1 then 0 else Z.log2 (n - 1) + 1.

(** Value stored by [sig.eq(v)] in an unsigned signal of width [w]: the
    low [w] bits of [v] (two's complement for a negative [v]). *)
Definition assign (w v : Z) : Z := Z.land v (Z.ones w).

(** [len(sig)]-relative index of [sig[-1]]. *)
Definition msb_index (w : Z) : Z := w - 1.

End Amaranth.

Module Python.

Inductive exn : Type :=
| ValueError (msg : string)
| IndexError.

Inductive result (A : Type) : Type :=
| Ok (a : A)
| Raise (e : exn).
Arguments Ok {A} a.
Arguments Raise {A} e.

(** [round(x)]: nearest integer, ties to the even one. *)
Definition round (x : Q) : Z :=
  let f := Qfloor x in
  match (x - inject_Z f ?= 1 # 2)%Q with
  | Lt => f
  | Gt => f + 1
  | Eq => if Z.even f then f else f + 1
  end.

(** [round(x, ndigits)]. *)
Definition round_ndigits (x : Q) (ndigits : Z) : Q :=
  (inject_Z (round (x * inject_Z (10 ^ ndigits))) / inject_Z (10 ^ ndigits))%Q.

Definition Qlt_bool (x y : Q) : bool := negb (Qle_bool y x).

(** [sum(1 for v in range(n) if f(v))]. *)
Fixpoint count_values (f : Z -> bool) (n : nat) : nat :=
  match n with
  | O => O
  | S k => (count_values f k + if f (Z.of_nat k) then 1 else 0)%nat
  end.

End Python.

Import Python.

(** ** Module constants (vga.py, lines 13-23) *)

Definition ACTPIXEL : Z := 640.
Definition HPORCH_FRONT : Z := 16.
Definition HPORCH_SYNC : Z := 96.
Definition HPORCH_BACK : Z := 48.
Definition HTOTAL : Z := ACTPIXEL + HPORCH_FRONT + HPORCH_SYNC + HPORCH_BACK.

Definition ACTLINE : Z := 480.
Definition VPORCH_FRONT : Z := 10.
Definition VPORCH_SYNC : Z := 2.
Definition VPORCH_BACK : Z := 33.
Definition VTOTAL : Z := ACTLINE + VPORCH_FRONT + VPORCH_SYNC + VPORCH_BACK.

(** ** RGBOn *)

Module RGBOn.

Record t : Type := init { r_shape : Z; g_shape : Z; b_shape : Z }.

(** One channel of [elaborate]: [x_on.eq(~0)], then, under
    [m.If(halfbrite)], [x_on[-1].eq(0)]. *)
Definition on (w : Z) (halfbrite : bool) : Z :=
  let full := Amaranth.assign w (Z.lnot 0) in
  if halfbrite then Z.clearbit full (Amaranth.msb_index w) else full.

Definition r_on (self : t) := on (r_shape self).
Definition g_on (self : t) := on (g_shape self).
Definition b_on (self : t) := on (b_shape self).

(** [elaborate] builds the three slices [x_on[-1]] whatever the value of
    [halfbrite] is; indexing a signal of width 0 raises [IndexError]. *)
Definition elaborate (self : t) : result (bool -> Z * Z * Z) :=
  if (0 <? r_shape self) && (0 <? g_shape self) && (0 <? b_shape self)
  then Ok (fun halfbrite =>
             (r_on self halfbrite, g_on self halfbrite, b_on self halfbrite))
  else Raise IndexError.

End RGBOn.

(** ** LineGen *)

Module LineGen.

Record t : Type := {
  r_shape : Z;
  g_shape : Z;
  b_shape : Z;
  _block_cycles : Z;
  _actpixel : Z;
  _hporch_front : Z;
  _hporch_sync : Z;
  _hporch_back : Z;
  _htotal : Z
}.

Definition init (r_shape g_shape b_shape : Z)
           (block_cycles hporch_front hporch_sync hporch_back : Z) : t :=
  {| r_shape := r_shape; g_shape := g_shape; b_shape := b_shape;
     _block_cycles := block_cycles;
     _actpixel := 8 * block_cycles;
     _hporch_front := hporch_front;
     _hporch_sync := hporch_sync;
     _hporch_back := hporch_back;
     _htotal := 8 * block_cycles + hporch_front + hporch_sync + hporch_back |}.

(** The constructor called with its default keyword arguments. *)
Definition init_default (r_shape g_shape b_shape : Z) : t :=
  init r_shape g_shape b_shape
       (ACTPIXEL / 8) HPORCH_FRONT HPORCH_SYNC HPORCH_BACK.

(** The three registers of [elaborate]. *)
Record state : Type := {
  pixel : Z;
  block_pixel : Z;
  block : Z
}.

Definition reset : state := {| pixel := 0; block_pixel := 0; block := 0 |}.

Definition pixel_width (self : t) : Z := Amaranth.range_width (_htotal self).
Definition block_pixel_width (self : t) : Z :=
  Amaranth.range_width (_block_cycles self).
Definition block_width : Z := Amaranth.range_width 9.

Definition rgb_on (self : t) : RGBOn.t :=
  RGBOn.init (r_shape self) (g_shape self) (b_shape self).

(** The [sync] assignments: the register values after one clock edge. *)
Definition next (self : t) (s : state) : state :=
  let pixel' :=
    Amaranth.assign (pixel_width self)
      (if pixel s =? _htotal self - 1 then 0 else pixel s + 1) in
  if pixel s =? _htotal self - 1 then
    {| pixel := pixel';
       block_pixel := Amaranth.assign (block_pixel_width self) 0;
       block := Amaranth.assign block_width 0 |}
  else if block_pixel s =? _block_cycles self - 1 then
    {| pixel := pixel';
       block_pixel := Amaranth.assign (block_pixel_width self) 0;
       block := if block s <? 8
                then Amaranth.assign block_width (block s + 1)
                else block s |}
  else
    {| pixel := pixel';
       block_pixel :=
         Amaranth.assign (block_pixel_width self) (block_pixel s + 1);
       block := block s |}.

(** The [comb] outputs. *)
Definition newline (self : t) (s : state) : bool :=
  pixel s =? _htotal self - 1.

Definition hsync (self : t) (s : state) : bool :=
  (_actpixel self + _hporch_front self <=? pixel s)
  && (pixel s <? _actpixel self + _hporch_front self + _hporch_sync self).

Definition rgb (self : t) (vporch halfbrite : bool) (s : state) : Z * Z * Z :=
  let r_on := RGBOn.r_on (rgb_on self) halfbrite in
  let b_on := RGBOn.b_on (rgb_on self) halfbrite in
  let g_on := RGBOn.g_on (rgb_on self) halfbrite in
  if vporch then (0, 0, 0)
  else match block s with
       | 0 => (r_on, 0, 0)
       | 1 => (0, g_on, 0)
       | 2 => (0, 0, b_on)
       | 3 => (0, 0, 0)
       | 4 => (r_on, g_on, 0)
       | 5 => (r_on, 0, b_on)
       | 6 => (0, g_on, b_on)
       | 7 => (r_on, g_on, b_on)
       | _ => (0, 0, 0)
       end.

(** Register values that occur when the design is clocked from reset
    (the inputs [vporch] and [halfbrite] feed no register). *)
Inductive reachable (self : t) : state -> Prop :=
| reach_reset : reachable self reset
| reach_next s : reachable self s -> reachable self (next self s).

(** The register values recomputed from a value [p] of the pixel counter:
    [block_pixel] counts within a block, [block] saturates at 8. *)
Definition at_pixel (self : t) (p : Z) : state :=
  {| pixel := p;
     block_pixel := p mod _block_cycles self;
     block := Z.min (p / _block_cycles self) 8 |}.

(** An instance as [__init__] builds it, from a positive block width and
    porch widths that are not negative. *)
Definition well_formed (self : t) : Prop :=
  0 < _block_cycles self
  /\ 0 <= _hporch_front self
  /\ 0 <= _hporch_sync self
  /\ 0 <= _hporch_back self
  /\ _actpixel self = 8 * _block_cycles self
  /\ _htotal self = 8 * _block_cycles self + _hporch_front self
                    + _hporch_sync self + _hporch_back self.

End LineGen.

(** ** VScanGen *)

Module VScanGen.

Record state : Type := { line : Z }.

Definition reset : state := {| line := 0 |}.

Definition line_width : Z := Amaranth.range_width VTOTAL.

(** [with m.If(self.newline): m.d.sync += line.eq(Mux(...))]. *)
Definition next (newline : bool) (s : state) : state :=
  if newline
  then {| line := Amaranth.assign line_width
                    (if line s =? VTOTAL - 1 then 0 else line s + 1) |}
  else s.

Definition vporch (s : state) : bool := ACTLINE <=? line s.

Definition vsync (s : state) : bool :=
  (ACTLINE + VPORCH_FRONT <=? line s)
  && (line s <? ACTLINE + VPORCH_FRONT + VPORCH_SYNC).

Definition halfbrite (s : state) : bool := Z.testbit (line s) 6.

Definition newframe (newline : bool) (s : state) : bool :=
  (line s =? VTOTAL - 1) && newline.

(** Register values that occur from reset under any [newline] input. *)
Inductive reachable : state -> Prop :=
| reach_reset : reachable reset
| reach_next newline s : reachable s -> reachable (next newline s).

End VScanGen.

(** ** VGA *)

Module VGA.

Record t : Type := {
  _res_name : string;
  _res_num : Z;
  _freq_ratio : Q
}.

Definition base_freq : Q := 25200000.

(** [__init__]: the ratio is stored, or [ValueError] is raised and the
    caller receives no object. *)
Definition init (res_name : string) (res_num : Z) (clk_freq : Q) : result t :=
  let ratio := round_ndigits (clk_freq / base_freq) 4 in
  if Qlt_bool ratio 1
  then Raise (ValueError
                "VGA test pattern has to be run with a min. freq. of 25.2MHz")
  else Ok {| _res_name := res_name; _res_num := res_num;
             _freq_ratio := ratio |}.

(** The part of the resource returned by [platform.request] that
    [elaborate] reads: the widths of the three colour outputs. *)
Record pins : Type := { r_width : Z; g_width : Z; b_width : Z }.

(** The [LineGen] that [elaborate] instantiates. *)
Definition linegen (self : t) (vga : pins) : LineGen.t :=
  let ratio := _freq_ratio self in
  if Qlt_bool ratio (101 # 100) then
    LineGen.init_default (r_width vga) (g_width vga) (b_width vga)
  else
    let hporch_sync := round (ratio * inject_Z HPORCH_SYNC) in
    let hporch_back := round (ratio * inject_Z HPORCH_BACK) in
    let block_cycles := round (ratio * inject_Z ACTPIXEL / 8) in
    let htotal := round (ratio * inject_Z HTOTAL) in
    let hporch_front :=
      htotal - (8 * block_cycles + hporch_sync + hporch_back) in
    LineGen.init (r_width vga) (g_width vga) (b_width vga)
                 block_cycles hporch_front hporch_sync hporch_back.

(** Registers of the two submodules. *)
Record state : Type := {
  linegen_state : LineGen.state;
  vgen_state : VScanGen.state
}.

Definition reset : state :=
  {| linegen_state := LineGen.reset; vgen_state := VScanGen.reset |}.

(** One clock edge of the composed design; [vgen.newline] is wired to
    [linegen.newline], a function of the registers before the edge. *)
Definition next (lg : LineGen.t) (s : state) : state :=
  let newline := LineGen.newline lg (linegen_state s) in
  {| linegen_state := LineGen.next lg (linegen_state s);
     vgen_state := VScanGen.next newline (vgen_state s) |}.

Definition newline (lg : LineGen.t) (s : state) : bool :=
  LineGen.newline lg (linegen_state s).

Definition newframe (lg : LineGen.t) (s : state) : bool :=
  VScanGen.newframe (newline lg s) (vgen_state s).

(** Values driven on the resource: [r.o], [g.o], [b.o], [hs.o], [vs.o]. *)
Record outputs : Type := {
  r_o : Z; g_o : Z; b_o : Z; hs_o : bool; vs_o : bool
}.

Definition drive (lg : LineGen.t) (s : state) : outputs :=
  let '(r, g, b) :=
    LineGen.rgb lg (VScanGen.vporch (vgen_state s))
                (VScanGen.halfbrite (vgen_state s)) (linegen_state s) in
  {| r_o := r; g_o := g; b_o := b;
     hs_o := negb (LineGen.hsync lg (linegen_state s));
     vs_o := negb (VScanGen.vsync (vgen_state s)) |}.

(** The state [n] clock edges after [s]. *)
Fixpoint run (lg : LineGen.t) (n : nat) (s : state) : state :=
  match n with
  | O => s
  | S k => run lg k (next lg s)
  end.

(** Number of cycles, among the [n] cycles starting in [s], on which the
    combinational output [out] is asserted. *)
Fixpoint count_cycles (lg : LineGen.t) (out : state -> bool)
         (n : nat) (s : state) : nat :=
  match n with
  | O => O
  | S k => ((if out s then 1 else 0) + count_cycles lg out k (next lg s))%nat
  end.

Inductive reachable (lg : LineGen.t) : state -> Prop :=
| reach_reset : reachable lg reset
| reach_next s : reachable lg s -> reachable lg (next lg s).

(** The register values recomputed from the number [c] of clock edges
    since reset: position in the line and number of the line. *)
Definition at_cycle (lg : LineGen.t) (c : Z) : state :=
  {| linegen_state := LineGen.at_pixel lg (c mod LineGen._htotal lg);
     vgen_state :=
       {| VScanGen.line := (c / LineGen._htotal lg) mod VTOTAL |} |}.

End VGA.

(** ** The MiSTer board (mister.py): six pins per colour channel *)

Definition mister_vga : VGA.pins :=
  {| VGA.r_width := 6; VGA.g_width := 6; VGA.b_width := 6 |}.

Definition mister_linegen : LineGen.t :=
  LineGen.init_default (VGA.r_width mister_vga) (VGA.g_width mister_vga)
                       (VGA.b_width mister_vga).

(** The colours of the [Switch] cases 0 to 7 of [LineGen.elaborate], in
    the order of the cases, for given on values of the three channels. *)
Definition colour_bars (r_on g_on b_on : Z) : list (Z * Z * Z) :=
  [ (r_on, 0, 0); (0, g_on, 0); (0, 0, b_on); (0, 0, 0);
    (r_on, g_on, 0); (r_on, 0, b_on); (0, g_on, b_on); (r_on, g_on, b_on) ].

(** * Properties *)

Ltac unfold_timing :=
  unfold HTOTAL, VTOTAL, ACTPIXEL, HPORCH_FRONT, HPORCH_SYNC, HPORCH_BACK,
    ACTLINE, VPORCH_FRONT, VPORCH_SYNC, VPORCH_BACK in *.

Ltac well_formed_by_evaluation :=
  unfold LineGen.well_formed; cbn; unfold_timing; lia.

(** ** Fixed-width assignment *)

Section Signals.

Lemma range_width_nonneg n : 0 <= Amaranth.range_width n.
Proof.
  unfold Amaranth.range_width.
  destruct (n <=? 1); [lia|].
  pose proof (Z.log2_nonneg (n - 1)); lia.
Qed.

Lemma range_width_fits n v :
  0 <= v < n -> v < 2 ^ Amaranth.range_width n.
Proof.
  intros Hv. unfold Amaranth.range_width.
  destruct (Z.leb_spec n 1) as [Hn|Hn].
  - simpl. lia.
  - destruct (Z.log2_spec (n - 1)) as [_ Hup]; [lia|].
    replace (Z.log2 (n - 1) + 1) with (Z.succ (Z.log2 (n - 1))) by lia.
    lia.
Qed.

Lemma assign_mod w v : 0 <= w -> Amaranth.assign w v = v mod 2 ^ w.
Proof. intros Hw. unfold Amaranth.assign. now apply Z.land_ones. Qed.

Lemma assign_in_range n v :
  0 <= v < n -> Amaranth.assign (Amaranth.range_width n) v = v.
Proof.
  intros Hv. rewrite assign_mod by apply range_width_nonneg.
  apply Z.mod_small. split; [lia|]. now apply range_width_fits.
Qed.

Lemma assign_all_ones w : 0 <= w -> Amaranth.assign w (Z.lnot 0) = 2 ^ w - 1.
Proof.
  intros Hw. unfold Amaranth.assign.
  change (Z.lnot 0) with (-1).
  rewrite Z.land_m1_l, Z.ones_equiv. lia.
Qed.

Lemma clear_top_of_ones w :
  0 < w -> Z.clearbit (2 ^ w - 1) (w - 1) = 2 ^ (w - 1) - 1.
Proof.
  intros Hw.
  replace (2 ^ w - 1) with (Z.ones w) by (rewrite Z.ones_equiv; lia).
  replace (2 ^ (w - 1) - 1) with (Z.ones (w - 1))
    by (rewrite Z.ones_equiv; lia).
  apply Z.bits_inj'. intros i Hi.
  rewrite Z.clearbit_eqb.
  destruct (Z.eqb_spec (w - 1) i) as [Heq|Hne]; cbn [negb].
  - rewrite andb_false_r. symmetry. apply Z.ones_spec_high. lia.
  - rewrite andb_true_r.
    destruct (Z.lt_ge_cases i (w - 1)).
    + rewrite !Z.ones_spec_low by lia. reflexivity.
    + rewrite !Z.ones_spec_high by lia. reflexivity.
Qed.

End Signals.

(** ** RGBOn: the value of a channel that is on *)

Lemma on_full w : 0 <= w -> RGBOn.on w false = 2 ^ w - 1.
Proof. intros Hw. unfold RGBOn.on. now apply assign_all_ones. Qed.

Lemma on_half w : 0 < w -> RGBOn.on w true = 2 ^ (w - 1) - 1.
Proof.
  intros Hw. unfold RGBOn.on, Amaranth.msb_index.
  rewrite assign_all_ones by lia. now apply clear_top_of_ones.
Qed.

(** C8. For a channel of width [w] (at least one bit, as [elaborate]
    requires), the on value is all ones, [2^w - 1], when [halfbrite] is low,
    and has its top bit cleared, [2^(w-1) - 1], when [halfbrite] is high; an
    8-bit channel gives 0xFF and 0x7F.  The three channels of an elaborated
    [RGBOn] carry these values. *)
Theorem rgb_on_value (self : RGBOn.t) (w : Z) :
  0 < w ->
  0 < RGBOn.r_shape self -> 0 < RGBOn.g_shape self -> 0 < RGBOn.b_shape self ->
  RGBOn.on w false = 2 ^ w - 1
  /\ RGBOn.on w true = 2 ^ (w - 1) - 1
  /\ Z.testbit (RGBOn.on w true) (w - 1) = false
  /\ RGBOn.on 8 false = 255
  /\ RGBOn.on 8 true = 127
  /\ exists outs,
      RGBOn.elaborate self = Ok outs
      /\ outs false = (2 ^ RGBOn.r_shape self - 1,
                       2 ^ RGBOn.g_shape self - 1,
                       2 ^ RGBOn.b_shape self - 1)
      /\ outs true = (2 ^ (RGBOn.r_shape self - 1) - 1,
                      2 ^ (RGBOn.g_shape self - 1) - 1,
                      2 ^ (RGBOn.b_shape self - 1) - 1).
Proof.
  intros Hw Hr Hg Hb.
  split; [apply on_full; lia|].
  split; [now apply on_half|].
  split.
  { unfold RGBOn.on, Amaranth.msb_index. apply Z.clearbit_eq. }
  split; [reflexivity|].
  split; [reflexivity|].
  unfold RGBOn.elaborate.
  apply Z.ltb_lt in Hr as Hr'. apply Z.ltb_lt in Hg as Hg'.
  apply Z.ltb_lt in Hb as Hb'.
  rewrite Hr', Hg', Hb'. simpl.
  eexists. split; [reflexivity|].
  unfold RGBOn.r_on, RGBOn.g_on, RGBOn.b_on.
  rewrite !on_full, !on_half by lia. split; reflexivity.
Qed.

Lemma rgb_on_value_witness :
  0 < 6
  /\ RGBOn.on 6 false = 63
  /\ RGBOn.on 6 true = 31
  /\ RGBOn.on 8 false = 255
  /\ RGBOn.on 8 true = 127.
Proof.
  assert (H6 : 0 < 6) by lia.
  destruct (rgb_on_value (RGBOn.init 6 6 6) 6 H6 H6 H6 H6)
    as (H1 & H2 & _ & H4 & H5 & _).
  exact (conj H6 (conj H1 (conj H2 (conj H4 H5)))).
Defined.

(** ** Arithmetic of a counter that wraps *)

Section Wrap.

Variables p d : Z.
Hypothesis d_pos : 0 < d.

Lemma succ_wraps :
  p mod d = d - 1 -> (p + 1) / d = p / d + 1 /\ (p + 1) mod d = 0.
Proof.
  intros Hlast.
  pose proof (Z.div_mod p d ltac:(lia)) as Hp.
  assert (Hq : (p + 1) / d = p / d + 1).
  { symmetry. apply Z.div_unique with (r := 0); lia. }
  split; [exact Hq|].
  pose proof (Z.div_mod (p + 1) d ltac:(lia)) as Hp1.
  rewrite Hq in Hp1. lia.
Qed.

Lemma succ_stays :
  p mod d <> d - 1 -> (p + 1) / d = p / d /\ (p + 1) mod d = p mod d + 1.
Proof.
  intros Hnot.
  pose proof (Z.div_mod p d ltac:(lia)) as Hp.
  pose proof (Z.mod_pos_bound p d d_pos) as Hb.
  assert (Hq : (p + 1) / d = p / d).
  { symmetry. apply Z.div_unique with (r := p mod d + 1); lia. }
  split; [exact Hq|].
  pose proof (Z.div_mod (p + 1) d ltac:(lia)) as Hp1.
  rewrite Hq in Hp1. lia.
Qed.

End Wrap.

(** ** LineGen: the pixel counter and the block registers *)

Section LineGenRegisters.

Variable self : LineGen.t.
Hypothesis wf : LineGen.well_formed self.

Let H := LineGen._htotal self.
Let bc := LineGen._block_cycles self.

Lemma htotal_ge_8 : 8 <= LineGen._htotal self.
Proof. destruct wf as (? & ? & ? & ? & ? & ->). lia. Qed.

Lemma block_cycles_pos : 0 < LineGen._block_cycles self.
Proof. apply wf. Qed.

Lemma pixel_next s :
  LineGen.pixel (LineGen.next self s) =
  Amaranth.assign (LineGen.pixel_width self)
    (if LineGen.pixel s =? H - 1 then 0 else LineGen.pixel s + 1).
Proof.
  unfold LineGen.next. fold H.
  destruct (LineGen.pixel s =? H - 1); [reflexivity|].
  destruct (LineGen.block_pixel s =? _); reflexivity.
Qed.

(** One clock edge takes the registers recomputed from [p] to those
    recomputed from the successor of [p] modulo the line length. *)
Lemma next_at_pixel p :
  0 <= p < H ->
  LineGen.next self (LineGen.at_pixel self p) =
  LineGen.at_pixel self ((p + 1) mod H).
Proof.
  intros Hp. pose proof htotal_ge_8 as H8. pose proof block_cycles_pos as Hbc.
  fold H in H8. fold bc in Hbc.
  unfold LineGen.next, LineGen.at_pixel, LineGen.pixel_width,
    LineGen.block_pixel_width, LineGen.block_width.
  cbn [LineGen.pixel LineGen.block_pixel LineGen.block].
  fold H bc.
  pose proof (Z.mod_pos_bound p bc Hbc) as Hm.
  pose proof (Z.div_pos p bc ltac:(lia) Hbc) as Hd.
  destruct (Z.eqb_spec p (H - 1)) as [Hlast|Hnl].
  - replace (p + 1) with H by lia. rewrite Z.mod_same by lia.
    rewrite Z.mod_0_l, Z.div_0_l by lia.
    rewrite !assign_in_range by lia. reflexivity.
  - rewrite (Z.mod_small (p + 1) H) by lia.
    rewrite (assign_in_range H (p + 1)) by lia.
    destruct (Z.eqb_spec (p mod bc) (bc - 1)) as [Hwrap|Hstay].
    + destruct (succ_wraps p bc Hbc Hwrap) as [-> ->].
      rewrite assign_in_range by lia.
      destruct (Z.ltb_spec (Z.min (p / bc) 8) 8) as [Hlt|Hge].
      * rewrite assign_in_range by lia. f_equal. lia.
      * f_equal. lia.
    + destruct (succ_stays p bc Hbc Hstay) as [-> ->].
      rewrite assign_in_range by lia. reflexivity.
Qed.

(** Every reachable register state is the one recomputed from a pixel
    counter value inside the line. *)
Lemma reachable_at_pixel s :
  LineGen.reachable self s ->
  exists p, 0 <= p < H /\ s = LineGen.at_pixel self p.
Proof.
  pose proof htotal_ge_8 as H8. pose proof block_cycles_pos as Hbc.
  fold H in H8.
  induction 1 as [|s _ (p & Hp & ->)].
  - exists 0. split; [lia|].
    unfold LineGen.at_pixel. rewrite Z.mod_0_l, Z.div_0_l by lia. reflexivity.
  - exists ((p + 1) mod H). split.
    + apply Z.mod_pos_bound. lia.
    + now apply next_at_pixel.
Qed.

End LineGenRegisters.

Lemma pixel_wraps_to_zero (self : LineGen.t) (wf : LineGen.well_formed self)
      (s : LineGen.state) :
  LineGen.reachable self s ->
  (LineGen.newline self s = true <->
   LineGen.pixel s = LineGen._htotal self - 1)
  /\ (LineGen.newline self s = true <->
      LineGen.pixel (LineGen.next self s) = 0).
Proof.
  intros Hreach. pose proof (htotal_ge_8 self wf) as H8.
  destruct (reachable_at_pixel self wf s Hreach) as (p & Hp & ->).
  rewrite (next_at_pixel self wf p Hp).
  unfold LineGen.newline. cbn [LineGen.at_pixel LineGen.pixel].
  split; [apply Z.eqb_eq|].
  rewrite Z.eqb_eq. split.
  - intros ->. replace (LineGen._htotal self - 1 + 1)
      with (LineGen._htotal self) by lia.
    apply Z.mod_same. lia.
  - intros Hz.
    destruct (Z.eq_dec p (LineGen._htotal self - 1)) as [|Hne]; [assumption|].
    rewrite Z.mod_small in Hz by lia. lia.
Qed.

(** C1. In every reachable state the pixel counter advances by exactly one
    modulo [_htotal] on the clock edge, going from [_htotal - 1] to 0, and
    [newline] is high exactly when the counter before the edge is
    [_htotal - 1]; it is low again on the following cycle. *)
Theorem pixel_counter_advances (self : LineGen.t) (s : LineGen.state) :
  LineGen.well_formed self ->
  LineGen.reachable self s ->
  LineGen.pixel (LineGen.next self s)
  = (LineGen.pixel s + 1) mod LineGen._htotal self
  /\ (LineGen.pixel s = LineGen._htotal self - 1 ->
      LineGen.pixel (LineGen.next self s) = 0)
  /\ (LineGen.newline self s = true <->
      LineGen.pixel s = LineGen._htotal self - 1)
  /\ (LineGen.newline self s = true ->
      LineGen.newline self (LineGen.next self s) = false).
Proof.
  intros wf Hreach.
  pose proof (htotal_ge_8 self wf) as H8.
  destruct (reachable_at_pixel self wf s Hreach) as (p & Hp & ->).
  rewrite (next_at_pixel self wf p Hp).
  unfold LineGen.newline. cbn [LineGen.at_pixel LineGen.pixel].
  split; [reflexivity|].
  split.
  { intros ->. replace (LineGen._htotal self - 1 + 1)
      with (LineGen._htotal self) by lia.
    apply Z.mod_same. lia. }
  split; [apply Z.eqb_eq|].
  intros Hnl. apply Z.eqb_eq in Hnl. subst p.
  replace (LineGen._htotal self - 1 + 1) with (LineGen._htotal self) by lia.
  rewrite Z.mod_same by lia. apply Z.eqb_neq. lia.
Qed.

Lemma pixel_counter_advances_witness :
  LineGen.well_formed mister_linegen
  /\ LineGen.reachable mister_linegen
       (LineGen.next mister_linegen LineGen.reset)
  /\ LineGen.pixel
       (LineGen.next mister_linegen (LineGen.next mister_linegen LineGen.reset))
     = 2
  /\ LineGen.newline mister_linegen (LineGen.at_pixel mister_linegen 799) = true.
Proof.
  assert (wf : LineGen.well_formed mister_linegen)
    by well_formed_by_evaluation.
  assert (Hr : LineGen.reachable mister_linegen
                 (LineGen.next mister_linegen LineGen.reset))
    by (apply LineGen.reach_next, LineGen.reach_reset).
  split; [exact wf|]. split; [exact Hr|].
  split.
  - exact (proj1 (pixel_counter_advances mister_linegen _ wf Hr)).
  - reflexivity.
Defined.

(** C10. Clocked from reset, in every reachable state the block register
    holds [min (pixel / block_cycles, 8)] and the block-pixel register holds
    [pixel mod block_cycles]: the stored block position never drifts from the
    one recomputed from the pixel counter. *)
Theorem block_registers_track_pixel (self : LineGen.t) (s : LineGen.state) :
  LineGen.well_formed self ->
  LineGen.reachable self s ->
  LineGen.block s
  = Z.min (LineGen.pixel s / LineGen._block_cycles self) 8
  /\ LineGen.block_pixel s
     = LineGen.pixel s mod LineGen._block_cycles self.
Proof.
  intros wf Hreach.
  destruct (reachable_at_pixel self wf s Hreach) as (p & _ & ->).
  split; reflexivity.
Qed.

Lemma block_registers_track_pixel_witness :
  LineGen.well_formed mister_linegen
  /\ LineGen.reachable mister_linegen
       (LineGen.next mister_linegen LineGen.reset)
  /\ LineGen.block (LineGen.next mister_linegen LineGen.reset) = Z.min (1 / 80) 8
  /\ LineGen.block_pixel (LineGen.next mister_linegen LineGen.reset) = 1 mod 80.
Proof.
  assert (wf : LineGen.well_formed mister_linegen)
    by well_formed_by_evaluation.
  assert (Hr : LineGen.reachable mister_linegen
                 (LineGen.next mister_linegen LineGen.reset))
    by (apply LineGen.reach_next, LineGen.reach_reset).
  split; [exact wf|]. split; [exact Hr|].
  exact (block_registers_track_pixel mister_linegen _ wf Hr).
Defined.

(** ** LineGen: the colour pattern *)

(** C6. With [vporch] high the colour output is (0,0,0) whatever the block
    and [halfbrite] are; with [vporch] low, block 0 gives red alone, block 1
    green alone, block 2 blue alone, block 3 black, block 4 red and green,
    block 5 red and blue, block 6 green and blue, block 7 all three, each at
    the channel's on value, and every block index of 8 or more gives
    (0,0,0). *)
Theorem rgb_block_pattern (self : LineGen.t) (halfbrite : bool)
        (s : LineGen.state) :
  LineGen.rgb self true halfbrite s = (0, 0, 0)
  /\ (LineGen.block s = 0 -> LineGen.rgb self false halfbrite s
       = (RGBOn.on (LineGen.r_shape self) halfbrite, 0, 0))
  /\ (LineGen.block s = 1 -> LineGen.rgb self false halfbrite s
       = (0, RGBOn.on (LineGen.g_shape self) halfbrite, 0))
  /\ (LineGen.block s = 2 -> LineGen.rgb self false halfbrite s
       = (0, 0, RGBOn.on (LineGen.b_shape self) halfbrite))
  /\ (LineGen.block s = 3 -> LineGen.rgb self false halfbrite s = (0, 0, 0))
  /\ (LineGen.block s = 4 -> LineGen.rgb self false halfbrite s
       = (RGBOn.on (LineGen.r_shape self) halfbrite,
          RGBOn.on (LineGen.g_shape self) halfbrite, 0))
  /\ (LineGen.block s = 5 -> LineGen.rgb self false halfbrite s
       = (RGBOn.on (LineGen.r_shape self) halfbrite, 0,
          RGBOn.on (LineGen.b_shape self) halfbrite))
  /\ (LineGen.block s = 6 -> LineGen.rgb self false halfbrite s
       = (0, RGBOn.on (LineGen.g_shape self) halfbrite,
          RGBOn.on (LineGen.b_shape self) halfbrite))
  /\ (LineGen.block s = 7 -> LineGen.rgb self false halfbrite s
       = (RGBOn.on (LineGen.r_shape self) halfbrite,
          RGBOn.on (LineGen.g_shape self) halfbrite,
          RGBOn.on (LineGen.b_shape self) halfbrite))
  /\ (8 <= LineGen.block s ->
      LineGen.rgb self false halfbrite s = (0, 0, 0)).
Proof.
  unfold LineGen.rgb.
  split; [reflexivity|].
  repeat (split; [intros ->; reflexivity|]).
  intros Hge.
  destruct (LineGen.block s) as [|q|q]; try lia.
  do 4 (try (destruct q as [q|q|]; try lia; try reflexivity)).
Qed.

Lemma rgb_block_pattern_witness :
  8 <= LineGen.block (LineGen.at_pixel mister_linegen 700)
  /\ LineGen.rgb mister_linegen false false
       (LineGen.at_pixel mister_linegen 700) = (0, 0, 0)
  /\ LineGen.rgb mister_linegen false true
       (LineGen.at_pixel mister_linegen 400) = (31, 0, 31).
Proof.
  assert (H8 : 8 <= LineGen.block (LineGen.at_pixel mister_linegen 700))
    by (cbn; lia).
  split; [exact H8|]. split.
  - apply (rgb_block_pattern mister_linegen false
             (LineGen.at_pixel mister_linegen 700)). exact H8.
  - apply (rgb_block_pattern mister_linegen true
             (LineGen.at_pixel mister_linegen 400)). reflexivity.
Defined.

(** ** VScanGen: the line counter *)

Lemma vtotal_value : VTOTAL = 525.
Proof. reflexivity. Qed.

Lemma line_next (newline : bool) (v : VScanGen.state) :
  0 <= VScanGen.line v < VTOTAL ->
  VScanGen.next newline v =
  if newline then {| VScanGen.line := (VScanGen.line v + 1) mod VTOTAL |}
  else v.
Proof.
  intros Hl. unfold VScanGen.next, VScanGen.line_width.
  destruct newline; [|reflexivity]. f_equal.
  rewrite vtotal_value in *.
  destruct (Z.eqb_spec (VScanGen.line v) (525 - 1)) as [->|Hne].
  - reflexivity.
  - rewrite assign_in_range by lia. symmetry. apply Z.mod_small. lia.
Qed.

Lemma line_in_range (v : VScanGen.state) :
  VScanGen.reachable v -> 0 <= VScanGen.line v < VTOTAL.
Proof.
  induction 1 as [|newline v _ IH].
  - rewrite vtotal_value. cbn. lia.
  - rewrite (line_next newline v IH).
    destruct newline; [|exact IH].
    cbn [VScanGen.line]. apply Z.mod_pos_bound. rewrite vtotal_value. lia.
Qed.

(** ** VGA: the two counters in lock-step *)

Section Composition.

Variable lg : LineGen.t.
Hypothesis wf : LineGen.well_formed lg.

Let H := LineGen._htotal lg.

Lemma reachable_components s :
  VGA.reachable lg s ->
  LineGen.reachable lg (VGA.linegen_state s)
  /\ VScanGen.reachable (VGA.vgen_state s).
Proof.
  induction 1 as [|s _ [IHl IHv]].
  - split; constructor.
  - split; cbn; now constructor.
Qed.

(** One clock edge takes the registers of cycle [c] to those of cycle
    [c + 1]. *)
Lemma next_at_cycle c :
  0 <= c -> VGA.next lg (VGA.at_cycle lg c) = VGA.at_cycle lg (c + 1).
Proof.
  intros Hc. pose proof (htotal_ge_8 lg wf) as H8. fold H in H8.
  assert (Hpos : 0 < H) by lia.
  pose proof (Z.mod_pos_bound c H Hpos) as Hm.
  unfold VGA.next, VGA.at_cycle.
  cbn [VGA.linegen_state VGA.vgen_state]. fold H.
  rewrite (next_at_pixel lg wf (c mod H) Hm). fold H.
  rewrite Z.add_mod_idemp_l by lia.
  f_equal.
  rewrite line_next
    by (cbn [VScanGen.line]; apply Z.mod_pos_bound; rewrite vtotal_value; lia).
  unfold LineGen.newline. cbn [LineGen.at_pixel LineGen.pixel VScanGen.line].
  fold H.
  destruct (Z.eqb_spec (c mod H) (H - 1)) as [Hlast|Hnl].
  - destruct (succ_wraps c H Hpos Hlast) as [-> _].
    rewrite Z.add_mod_idemp_l by (rewrite vtotal_value; lia). reflexivity.
  - destruct (succ_stays c H Hpos Hnl) as [-> _]. reflexivity.
Qed.

Lemma reset_at_cycle : VGA.reset = VGA.at_cycle lg 0.
Proof.
  pose proof (htotal_ge_8 lg wf) as H8.
  pose proof (block_cycles_pos lg wf) as Hbc.
  unfold VGA.reset, VGA.at_cycle, LineGen.at_pixel, LineGen.reset,
    VScanGen.reset.
  rewrite Z.mod_0_l, Z.div_0_l by lia.
  rewrite Z.mod_0_l, Z.div_0_l by lia.
  reflexivity.
Qed.

Lemma run_at_cycle n c :
  0 <= c ->
  VGA.run lg n (VGA.at_cycle lg c) = VGA.at_cycle lg (c + Z.of_nat n).
Proof.
  revert c. induction n as [|n IH]; intros c Hc.
  - cbn [VGA.run]. f_equal. lia.
  - cbn [VGA.run]. rewrite next_at_cycle by exact Hc.
    rewrite IH by lia. f_equal. lia.
Qed.

(** [n] clock edges after reset the pixel counter holds [n mod htotal]
    and the line counter [(n / htotal) mod VTOTAL]. *)
Lemma run_from_reset n :
  VGA.run lg n VGA.reset = VGA.at_cycle lg (Z.of_nat n).
Proof. rewrite reset_at_cycle, run_at_cycle by lia. f_equal. Qed.

Lemma reachable_at_cycle s :
  VGA.reachable lg s -> exists c, 0 <= c /\ s = VGA.at_cycle lg c.
Proof.
  induction 1 as [|s _ (c & Hc & ->)].
  - exists 0. split; [lia|apply reset_at_cycle].
  - exists (c + 1). split; [lia|now apply next_at_cycle].
Qed.

End Composition.

(** C2. On a cycle where [newline] is low the line counter keeps its value;
    on a cycle where [newline] is high it advances by exactly one modulo
    [VTOTAL] on that same clock edge, going from [VTOTAL - 1] to 0.  In the
    composed design [newline] is the comparison of the pixel counter before
    the edge with [_htotal - 1], so the line counter moves on the very edge
    on which the pixel counter wraps. *)
Theorem line_counter_follows_newline (lg : LineGen.t) (s : VGA.state) :
  LineGen.well_formed lg ->
  VGA.reachable lg s ->
  (forall newline v,
      VScanGen.reachable v ->
      VScanGen.line (VScanGen.next newline v)
      = if newline then (VScanGen.line v + 1) mod VTOTAL else VScanGen.line v)
  /\ (VGA.newline lg s = false ->
      VScanGen.line (VGA.vgen_state (VGA.next lg s))
      = VScanGen.line (VGA.vgen_state s))
  /\ (VGA.newline lg s = true ->
      VScanGen.line (VGA.vgen_state (VGA.next lg s))
      = (VScanGen.line (VGA.vgen_state s) + 1) mod VTOTAL)
  /\ (VGA.newline lg s = true ->
      VScanGen.line (VGA.vgen_state s) = VTOTAL - 1 ->
      VScanGen.line (VGA.vgen_state (VGA.next lg s)) = 0)
  /\ (VGA.newline lg s = true <->
      LineGen.pixel (VGA.linegen_state s) = LineGen._htotal lg - 1)
  /\ (VGA.newline lg s = true <->
      LineGen.pixel (VGA.linegen_state (VGA.next lg s)) = 0).
Proof.
  intros wf Hreach.
  assert (Hstep : forall newline v,
             VScanGen.reachable v ->
             VScanGen.line (VScanGen.next newline v)
             = if newline then (VScanGen.line v + 1) mod VTOTAL
               else VScanGen.line v).
  { intros newline v Hv. rewrite (line_next newline v (line_in_range v Hv)).
    destruct newline; reflexivity. }
  destruct (reachable_components lg s Hreach) as [Hl Hv].
  destruct (pixel_wraps_to_zero lg wf _ Hl) as [Hnl Hzero].
  split; [exact Hstep|].
  unfold VGA.newline, VGA.next. cbn [VGA.vgen_state VGA.linegen_state].
  split; [intros E; rewrite E; now rewrite Hstep|].
  split; [intros E; rewrite E; now rewrite Hstep|].
  split.
  { intros E Hlast. rewrite E, Hstep, Hlast by exact Hv. reflexivity. }
  split; [exact Hnl|exact Hzero].
Qed.

Lemma line_counter_follows_newline_witness :
  LineGen.well_formed mister_linegen
  /\ VGA.reachable mister_linegen (VGA.next mister_linegen VGA.reset)
  /\ VGA.newline mister_linegen (VGA.at_cycle mister_linegen 799) = true
  /\ VScanGen.line
       (VGA.vgen_state (VGA.next mister_linegen
                          (VGA.next mister_linegen VGA.reset))) = 0.
Proof.
  assert (wf : LineGen.well_formed mister_linegen)
    by well_formed_by_evaluation.
  assert (Hr : VGA.reachable mister_linegen (VGA.next mister_linegen VGA.reset))
    by (apply VGA.reach_next, VGA.reach_reset).
  split; [exact wf|]. split; [exact Hr|]. split; [reflexivity|].
  destruct (line_counter_follows_newline mister_linegen _ wf Hr)
    as (_ & Hkeep & _).
  exact (Hkeep eq_refl).
Defined.

(** ** Counting cycles and counter values *)

Lemma count_cycles_app lg out n m s :
  VGA.count_cycles lg out (n + m) s
  = (VGA.count_cycles lg out n s
     + VGA.count_cycles lg out m (VGA.run lg n s))%nat.
Proof.
  revert s. induction n as [|n IH]; intros s; cbn; [reflexivity|].
  rewrite IH. lia.
Qed.

Lemma count_values_interval (a b : Z) (n : nat) :
  0 <= a ->
  count_values (fun v => (a <=? v) && (v <? b)) n
  = Z.to_nat (Z.min b (Z.of_nat n) - a).
Proof.
  intros Ha. induction n as [|n IH].
  - cbn [count_values]. lia.
  - cbn [count_values]. rewrite IH.
    destruct (Z.leb_spec a (Z.of_nat n)), (Z.ltb_spec (Z.of_nat n) b);
      cbn [andb]; lia.
Qed.

Section Frame.

Variable lg : LineGen.t.
Hypothesis wf : LineGen.well_formed lg.

Let H := LineGen._htotal lg.

Lemma newframe_at_cycle c :
  0 <= c < H * VTOTAL ->
  VGA.newframe lg (VGA.at_cycle lg c) = (c =? H * VTOTAL - 1).
Proof.
  intros Hc. pose proof (htotal_ge_8 lg wf) as H8. fold H in H8.
  assert (Hpos : 0 < H) by lia.
  unfold VGA.newframe, VGA.newline, VScanGen.newframe, LineGen.newline,
    VGA.at_cycle.
  cbn [VGA.linegen_state VGA.vgen_state LineGen.at_pixel LineGen.pixel
       VScanGen.line].
  fold H. rewrite vtotal_value in *.
  pose proof (Z.div_mod c H ltac:(lia)) as Hdm.
  pose proof (Z.mod_pos_bound c H Hpos) as Hm.
  assert (Hq : 0 <= c / H < 525).
  { split; [apply Z.div_pos; lia|apply Z.div_lt_upper_bound; lia]. }
  rewrite (Z.mod_small (c / H) 525) by exact Hq.
  destruct (Z.eqb_spec (c / H) (525 - 1)) as [Eq|Nq];
    destruct (Z.eqb_spec (c mod H) (H - 1)) as [Em|Nm];
    destruct (Z.eqb_spec c (H * 525 - 1)) as [Ec|Nc];
    cbn [andb]; try reflexivity; exfalso.
  - rewrite Eq, Em in Hdm. lia.
  - apply Nm. subst c. symmetry.
    apply Z.mod_unique with (q := 524); lia.
  - apply Nq. subst c. symmetry.
    apply Z.div_unique with (r := H - 1); lia.
  - apply Nq. subst c. symmetry.
    apply Z.div_unique with (r := H - 1); lia.
Qed.

Lemma no_newframe_before_last n c :
  0 <= c ->
  c + Z.of_nat n <= H * VTOTAL - 1 ->
  VGA.count_cycles lg (VGA.newframe lg) n (VGA.at_cycle lg c) = 0%nat.
Proof.
  revert c. induction n as [|n IH]; intros c Hc Hend; [reflexivity|].
  cbn [VGA.count_cycles].
  rewrite newframe_at_cycle by lia.
  rewrite (next_at_cycle lg wf c Hc), IH by lia.
  destruct (Z.eqb_spec c (H * VTOTAL - 1)); [lia|reflexivity].
Qed.

Lemma one_newframe_per_frame :
  VGA.count_cycles lg (VGA.newframe lg) (Z.to_nat (H * VTOTAL)) VGA.reset
  = 1%nat.
Proof.
  pose proof (htotal_ge_8 lg wf) as H8. fold H in H8.
  assert (Hlen : 0 < H * VTOTAL) by (rewrite vtotal_value; lia).
  replace (Z.to_nat (H * VTOTAL))
    with (Z.to_nat (H * VTOTAL - 1) + 1)%nat by lia.
  rewrite count_cycles_app.
  rewrite (reset_at_cycle lg wf) at 1.
  rewrite no_newframe_before_last by lia.
  rewrite (run_from_reset lg wf).
  cbn [VGA.count_cycles]. rewrite newframe_at_cycle by lia.
  rewrite Z2Nat.id by lia. rewrite Z.eqb_refl. reflexivity.
Qed.

End Frame.

(** C7. [newframe] is high exactly on the cycles where the line counter is
    [VTOTAL - 1] and [newline] is high; among the first
    [_htotal * VTOTAL] cycles after reset there is exactly one such cycle,
    the last one. *)
Theorem newframe_once_per_frame (lg : LineGen.t) :
  LineGen.well_formed lg ->
  (forall s,
      VGA.newframe lg s = true <->
      VScanGen.line (VGA.vgen_state s) = VTOTAL - 1
      /\ VGA.newline lg s = true)
  /\ VGA.count_cycles lg (VGA.newframe lg)
       (Z.to_nat (LineGen._htotal lg * VTOTAL)) VGA.reset = 1%nat
  /\ VGA.newframe lg
       (VGA.run lg (Z.to_nat (LineGen._htotal lg * VTOTAL - 1)) VGA.reset)
     = true.
Proof.
  intros wf. pose proof (htotal_ge_8 lg wf) as H8.
  split.
  { intros s. unfold VGA.newframe, VScanGen.newframe.
    rewrite andb_true_iff, Z.eqb_eq. reflexivity. }
  split; [now apply one_newframe_per_frame|].
  rewrite (run_from_reset lg wf), newframe_at_cycle by (try assumption;
    rewrite vtotal_value; lia).
  rewrite Z2Nat.id by (rewrite vtotal_value; lia). apply Z.eqb_refl.
Qed.

Lemma newframe_once_per_frame_witness :
  LineGen.well_formed mister_linegen
  /\ VGA.count_cycles mister_linegen (VGA.newframe mister_linegen)
       (Z.to_nat (800 * 525)) VGA.reset = 1%nat.
Proof.
  assert (wf : LineGen.well_formed mister_linegen)
    by well_formed_by_evaluation.
  split; [exact wf|].
  exact (proj1 (proj2 (newframe_once_per_frame mister_linegen wf))).
Defined.

(** ** Sync windows *)

Lemma count_values_ext (f g : Z -> bool) (n : nat) :
  (forall v, 0 <= v < Z.of_nat n -> f v = g v) ->
  count_values f n = count_values g n.
Proof.
  induction n as [|n IH]; intros Hfg; [reflexivity|].
  cbn [count_values]. rewrite IH, (Hfg (Z.of_nat n)) by (intros; try apply Hfg; lia).
  reflexivity.
Qed.

Lemma count_cycles_values lg (wf : LineGen.well_formed lg) out n :
  VGA.count_cycles lg out n VGA.reset
  = count_values (fun c => out (VGA.at_cycle lg c)) n.
Proof.
  induction n as [|n IH]; [reflexivity|].
  replace (S n) with (n + 1)%nat by lia.
  rewrite count_cycles_app, IH, (run_from_reset lg wf).
  rewrite Nat.add_1_r. cbn [VGA.count_cycles count_values]. lia.
Qed.

Lemma hsync_window lg s :
  LineGen.hsync lg s = true <->
  LineGen._actpixel lg + LineGen._hporch_front lg <= LineGen.pixel s
  < LineGen._actpixel lg + LineGen._hporch_front lg + LineGen._hporch_sync lg.
Proof.
  unfold LineGen.hsync. rewrite andb_true_iff, Z.leb_le, Z.ltb_lt. reflexivity.
Qed.

Lemma vsync_window v :
  VScanGen.vsync v = true <->
  ACTLINE + VPORCH_FRONT <= VScanGen.line v
  < ACTLINE + VPORCH_FRONT + VPORCH_SYNC.
Proof.
  unfold VScanGen.vsync. rewrite andb_true_iff, Z.leb_le, Z.ltb_lt. reflexivity.
Qed.

(** C3. [hsync] is high exactly when the pixel counter lies in
    [[active + front, active + front + sync)], and [vsync] exactly when the
    line counter lies in the same window of the vertical constants.  Hence
    [hsync] is high for exactly [_hporch_sync] of the [_htotal] counter
    values (and cycles) of a line and [vsync] for exactly [VPORCH_SYNC] of the
    [VTOTAL] line numbers, and [n] cycles after reset each signal is high
    exactly when the counter value reached, [n mod _htotal] or
    [(n / _htotal) mod VTOTAL], is at least [active + front] and less than
    [active + front + sync]. *)
Theorem sync_windows (lg : LineGen.t) :
  LineGen.well_formed lg ->
  (forall s,
      LineGen.hsync lg s = true <->
      LineGen._actpixel lg + LineGen._hporch_front lg <= LineGen.pixel s
      < LineGen._actpixel lg + LineGen._hporch_front lg
        + LineGen._hporch_sync lg)
  /\ (forall v,
      VScanGen.vsync v = true <->
      ACTLINE + VPORCH_FRONT <= VScanGen.line v
      < ACTLINE + VPORCH_FRONT + VPORCH_SYNC)
  /\ count_values (fun p => LineGen.hsync lg (LineGen.at_pixel lg p))
                  (Z.to_nat (LineGen._htotal lg))
     = Z.to_nat (LineGen._hporch_sync lg)
  /\ count_values (fun l => VScanGen.vsync {| VScanGen.line := l |})
                  (Z.to_nat VTOTAL)
     = Z.to_nat VPORCH_SYNC
  /\ VGA.count_cycles lg (fun s => LineGen.hsync lg (VGA.linegen_state s))
                      (Z.to_nat (LineGen._htotal lg)) VGA.reset
     = Z.to_nat (LineGen._hporch_sync lg)
  /\ (forall n : nat,
      (LineGen.hsync lg (VGA.linegen_state (VGA.run lg n VGA.reset)) = true <->
       LineGen._actpixel lg + LineGen._hporch_front lg
       <= Z.of_nat n mod LineGen._htotal lg
       < LineGen._actpixel lg + LineGen._hporch_front lg
         + LineGen._hporch_sync lg)
      /\ (VScanGen.vsync (VGA.vgen_state (VGA.run lg n VGA.reset)) = true <->
          ACTLINE + VPORCH_FRONT
          <= (Z.of_nat n / LineGen._htotal lg) mod VTOTAL
          < ACTLINE + VPORCH_FRONT + VPORCH_SYNC)).
Proof.
  intros wf.
  assert (Hcount :
            count_values (fun p => LineGen.hsync lg (LineGen.at_pixel lg p))
                         (Z.to_nat (LineGen._htotal lg))
            = Z.to_nat (LineGen._hporch_sync lg)).
  { unfold LineGen.hsync. cbn [LineGen.at_pixel LineGen.pixel].
    destruct wf as (Hbc & Hf & Hs & Hb & Ha & Ht).
    rewrite count_values_interval by lia. lia. }
  split; [apply hsync_window|].
  split; [apply vsync_window|].
  split; [exact Hcount|].
  split.
  { unfold VScanGen.vsync. cbn [VScanGen.line].
    rewrite count_values_interval by (unfold_timing; lia).
    unfold_timing. reflexivity. }
  split.
  { rewrite (count_cycles_values lg wf), <- Hcount.
    apply count_values_ext. intros c Hc.
    unfold VGA.at_cycle. cbn [VGA.linegen_state].
    rewrite Z.mod_small by lia. reflexivity. }
  intros n. rewrite (run_from_reset lg wf). unfold VGA.at_cycle.
  cbn [VGA.linegen_state VGA.vgen_state].
  rewrite hsync_window, vsync_window. split; reflexivity.
Qed.

Lemma sync_windows_witness :
  LineGen.well_formed mister_linegen
  /\ count_values
       (fun p => LineGen.hsync mister_linegen
                   (LineGen.at_pixel mister_linegen p))
       (Z.to_nat 800)
     = Z.to_nat 96.
Proof.
  assert (wf : LineGen.well_formed mister_linegen)
    by well_formed_by_evaluation.
  split; [exact wf|].
  exact (proj1 (proj2 (proj2 (sync_windows mister_linegen wf)))).
Defined.

(** ** Rounding *)

Lemma round_bounds (x : Q) :
  (x - (1 # 2) <= inject_Z (round x) <= x + (1 # 2))%Q.
Proof.
  unfold round.
  pose proof (Qfloor_le x) as Hlo. pose proof (Qlt_floor x) as Hhi.
  rewrite inject_Z_plus in Hhi. change (inject_Z 1) with 1%Q in Hhi.
  set (f := Qfloor x) in *.
  destruct (Qcompare_spec (x - inject_Z f) (1 # 2)) as [Heq|Hlt|Hgt].
  - destruct (Z.even f);
      rewrite ?inject_Z_plus; change (inject_Z 1) with 1%Q; lra.
  - lra.
  - rewrite inject_Z_plus. change (inject_Z 1) with 1%Q. lra.
Qed.

(** The ratio that [__init__] stores is [k / 10000] for an integer [k].  None
    of the four products that [elaborate] rounds is then half-way between two
    integers (each is a multiple of 8/10000 away from it at least), so the
    integer obtained depends neither on the tie rule of [round] nor on an
    error below that distance in the product. *)
Lemma scaled_products_never_tie (k f : Z) :
  ~ (inject_Z k / 10000 * inject_Z HPORCH_SYNC == inject_Z f + (1 # 2))%Q
  /\ ~ (inject_Z k / 10000 * inject_Z HPORCH_BACK == inject_Z f + (1 # 2))%Q
  /\ ~ (inject_Z k / 10000 * inject_Z ACTPIXEL / 8 == inject_Z f + (1 # 2))%Q
  /\ ~ (inject_Z k / 10000 * inject_Z HTOTAL == inject_Z f + (1 # 2))%Q.
Proof.
  repeat split; intros Htie; unfold Qeq in Htie; unfold_timing;
    cbn in Htie; lia.
Qed.

Lemma Qlt_bool_iff (x y : Q) : Qlt_bool x y = true <-> (x < y)%Q.
Proof.
  unfold Qlt_bool. rewrite negb_true_iff. split.
  - intros Hf. apply Qnot_le_lt. intros Hle.
    apply Qle_bool_iff in Hle. congruence.
  - intros Hlt. destruct (Qle_bool y x) eqn:E; [|reflexivity].
    apply Qle_bool_iff in E. exfalso. lra.
Qed.

Lemma Qlt_bool_false (x y : Q) : Qlt_bool x y = false <-> (y <= x)%Q.
Proof.
  unfold Qlt_bool. rewrite negb_false_iff. apply Qle_bool_iff.
Qed.

(** ** VGA: construction and derived timing *)

Lemma init_ok_ratio res_name res_num clk_freq self :
  VGA.init res_name res_num clk_freq = Ok self ->
  VGA._freq_ratio self = round_ndigits (clk_freq / VGA.base_freq) 4
  /\ (1 <= VGA._freq_ratio self)%Q.
Proof.
  unfold VGA.init.
  destruct (Qlt_bool _ 1) eqn:E; [discriminate|].
  intros [= <-]. cbn [VGA._freq_ratio].
  split; [reflexivity|now apply Qlt_bool_false].
Qed.

Section ScaledTiming.

Variable self : VGA.t.
Variable vga : VGA.pins.

Let ratio := VGA._freq_ratio self.
Let lg := VGA.linegen self vga.

Lemma linegen_below_gate :
  (ratio < 101 # 100)%Q ->
  lg = LineGen.init_default (VGA.r_width vga) (VGA.g_width vga)
                            (VGA.b_width vga).
Proof.
  intros Hlt. apply Qlt_bool_iff in Hlt.
  unfold lg, VGA.linegen. fold ratio. now rewrite Hlt.
Qed.

Lemma linegen_above_gate :
  (101 # 100 <= ratio)%Q ->
  lg = LineGen.init (VGA.r_width vga) (VGA.g_width vga) (VGA.b_width vga)
         (round (ratio * inject_Z ACTPIXEL / 8))
         (round (ratio * inject_Z HTOTAL)
          - (8 * round (ratio * inject_Z ACTPIXEL / 8)
             + round (ratio * inject_Z HPORCH_SYNC)
             + round (ratio * inject_Z HPORCH_BACK)))
         (round (ratio * inject_Z HPORCH_SYNC))
         (round (ratio * inject_Z HPORCH_BACK)).
Proof.
  intros Hge. apply Qlt_bool_false in Hge.
  unfold lg, VGA.linegen. fold ratio. now rewrite Hge.
Qed.

(** Above the gate every scaled width is positive: the rounding errors of
    the four roundings add up to less than the scaled front porch. *)
Lemma scaled_widths_positive :
  (101 # 100 <= ratio)%Q ->
  0 < round (ratio * inject_Z ACTPIXEL / 8)
  /\ 0 < round (ratio * inject_Z HPORCH_SYNC)
  /\ 0 < round (ratio * inject_Z HPORCH_BACK)
  /\ 0 < round (ratio * inject_Z HTOTAL)
        - (8 * round (ratio * inject_Z ACTPIXEL / 8)
           + round (ratio * inject_Z HPORCH_SYNC)
           + round (ratio * inject_Z HPORCH_BACK)).
Proof.
  intros Hge.
  pose proof (round_bounds (ratio * inject_Z ACTPIXEL / 8)) as Hb.
  pose proof (round_bounds (ratio * inject_Z HPORCH_SYNC)) as Hs.
  pose proof (round_bounds (ratio * inject_Z HPORCH_BACK)) as Hk.
  pose proof (round_bounds (ratio * inject_Z HTOTAL)) as Ht.
  assert (Hblock : (ratio * inject_Z ACTPIXEL / 8 == ratio * 80)%Q)
    by (unfold ACTPIXEL; field).
  set (xb := (ratio * inject_Z ACTPIXEL / 8)%Q) in *.
  set (b := round xb) in *.
  set (sy := round (ratio * inject_Z HPORCH_SYNC)) in *.
  set (bk := round (ratio * inject_Z HPORCH_BACK)) in *.
  set (t := round (ratio * inject_Z HTOTAL)) in *.
  change (inject_Z HPORCH_SYNC) with 96%Q in Hs.
  change (inject_Z HPORCH_BACK) with 48%Q in Hk.
  change (inject_Z HTOTAL) with 800%Q in Ht.
  rewrite !Zlt_Qlt. unfold Z.sub.
  rewrite inject_Z_plus, inject_Z_opp, !inject_Z_plus, inject_Z_mult.
  change (inject_Z 0) with 0%Q. change (inject_Z 8) with 8%Q.
  repeat split; lra.
Qed.

Lemma linegen_well_formed : (1 <= ratio)%Q -> LineGen.well_formed lg.
Proof.
  intros H1.
  destruct (Qlt_le_dec ratio (101 # 100)) as [Hlt|Hge].
  - rewrite (linegen_below_gate Hlt). well_formed_by_evaluation.
  - rewrite (linegen_above_gate Hge).
    destruct (scaled_widths_positive Hge) as (Hb & Hs & Hk & Hf).
    unfold LineGen.well_formed, LineGen.init.
    cbn [LineGen._block_cycles LineGen._hporch_front LineGen._hporch_sync
         LineGen._hporch_back LineGen._actpixel LineGen._htotal].
    set (b := round (ratio * inject_Z ACTPIXEL / 8)) in *.
    set (sy := round (ratio * inject_Z HPORCH_SYNC)) in *.
    set (bk := round (ratio * inject_Z HPORCH_BACK)) in *.
    set (t := round (ratio * inject_Z HTOTAL)) in *.
    clearbody b sy bk t. lia.
Qed.

End ScaledTiming.

Lemma init_cases res_name res_num clk_freq :
  ((round_ndigits (clk_freq / VGA.base_freq) 4 < 1)%Q
   /\ exists msg, VGA.init res_name res_num clk_freq = Raise (ValueError msg))
  \/ ((1 <= round_ndigits (clk_freq / VGA.base_freq) 4)%Q
      /\ exists self, VGA.init res_name res_num clk_freq = Ok self).
Proof.
  unfold VGA.init.
  destruct (Qlt_bool _ 1) eqn:E.
  - left. split; [now apply Qlt_bool_iff|eexists; reflexivity].
  - right. split; [now apply Qlt_bool_false|eexists; reflexivity].
Qed.

Lemma fixed_clock_cases res_name res_num :
  (exists msg, VGA.init res_name res_num 12600000 = Raise (ValueError msg))
  /\ (exists self,
        VGA.init res_name res_num 25200000 = Ok self
        /\ (VGA._freq_ratio self == 1)%Q
        /\ forall vga,
            VGA.linegen self vga
            = LineGen.init_default (VGA.r_width vga) (VGA.g_width vga)
                                   (VGA.b_width vga)
            /\ LineGen._actpixel (VGA.linegen self vga) = 640
            /\ LineGen._hporch_front (VGA.linegen self vga) = 16
            /\ LineGen._hporch_sync (VGA.linegen self vga) = 96
            /\ LineGen._hporch_back (VGA.linegen self vga) = 48
            /\ LineGen._htotal (VGA.linegen self vga) = 800)
  /\ (ACTLINE = 480 /\ VPORCH_FRONT = 10 /\ VPORCH_SYNC = 2
      /\ VPORCH_BACK = 33 /\ VTOTAL = 525)
  /\ (forall v,
        VScanGen.vporch v = (480 <=? VScanGen.line v)
        /\ VScanGen.vsync v
           = (490 <=? VScanGen.line v) && (VScanGen.line v <? 492)).
Proof.
  split; [eexists; reflexivity|].
  split.
  - eexists. split; [reflexivity|]. split; [reflexivity|].
    intros vga. repeat split; reflexivity.
  - split; [repeat split; reflexivity|].
    intros v. split; reflexivity.
Qed.

(** C5. [VGA.__init__] raises [ValueError] exactly when the clock ratio,
    rounded to four decimals, is below 1, and then yields no object; it
    raises for 12.6 MHz, and for exactly 25.2 MHz it succeeds with ratio 1
    and [elaborate] uses the default timing: horizontally 640 active pixels,
    front porch 16, sync 96, back porch 48; vertically 480 active lines,
    front porch 10, sync 2, back porch 33. *)
Theorem init_checks_clock (res_name : string) (res_num : Z) (clk_freq : Q) :
  ((exists msg, VGA.init res_name res_num clk_freq = Raise (ValueError msg))
   <-> (round_ndigits (clk_freq / 25200000) 4 < 1)%Q)
  /\ ((exists self, VGA.init res_name res_num clk_freq = Ok self)
      <-> ~ (round_ndigits (clk_freq / 25200000) 4 < 1)%Q)
  /\ (exists msg, VGA.init res_name res_num 12600000 = Raise (ValueError msg))
  /\ (exists self,
        VGA.init res_name res_num 25200000 = Ok self
        /\ (VGA._freq_ratio self == 1)%Q
        /\ forall vga,
            VGA.linegen self vga
            = LineGen.init_default (VGA.r_width vga) (VGA.g_width vga)
                                   (VGA.b_width vga)
            /\ LineGen._actpixel (VGA.linegen self vga) = 640
            /\ LineGen._hporch_front (VGA.linegen self vga) = 16
            /\ LineGen._hporch_sync (VGA.linegen self vga) = 96
            /\ LineGen._hporch_back (VGA.linegen self vga) = 48
            /\ LineGen._htotal (VGA.linegen self vga) = 800)
  /\ (ACTLINE = 480 /\ VPORCH_FRONT = 10 /\ VPORCH_SYNC = 2
      /\ VPORCH_BACK = 33 /\ VTOTAL = 525)
  /\ (forall v,
        VScanGen.vporch v = (480 <=? VScanGen.line v)
        /\ VScanGen.vsync v
           = (490 <=? VScanGen.line v) && (VScanGen.line v <? 492)).
Proof.
  change 25200000%Q with VGA.base_freq.
  destruct (init_cases res_name res_num clk_freq)
    as [[Hlt [msg Hraise]]|[Hge [self Hok]]].
  - split; [|split].
    + split; [intros _; exact Hlt|intros _; now exists msg].
    + split; [intros [self Hok]; congruence|intros Hn; contradiction].
    + apply fixed_clock_cases.
  - assert (Hnlt : ~ (round_ndigits (clk_freq / VGA.base_freq) 4 < 1)%Q)
      by (intros Hlt; lra).
    split; [|split].
    + split; [intros [msg Hraise]; congruence|intros Hlt; contradiction].
    + split; [intros _; exact Hnlt|intros _; now exists self].
    + apply fixed_clock_cases.
Qed.

(** C4, as the source implements it.  When the rounded clock ratio is at
    least 1.01, [elaborate] scales the horizontal timing: sync width
    [round(ratio * 96)], back porch [round(ratio * 48)], active region
    [8 * round(ratio * 640 / 8)], and the front porch is
    [round(ratio * 800)] minus the other three.  When the ratio is at least
    1 and below 1.01 the default widths 96, 48, 640 and 16 are used. *)
Theorem scaled_horizontal_timing
        (res_name : string) (res_num : Z) (clk_freq : Q)
        (self : VGA.t) (vga : VGA.pins) :
  VGA.init res_name res_num clk_freq = Ok self ->
  ((101 # 100 <= VGA._freq_ratio self)%Q ->
   LineGen._hporch_sync (VGA.linegen self vga)
   = round (VGA._freq_ratio self * 96)
   /\ LineGen._hporch_back (VGA.linegen self vga)
      = round (VGA._freq_ratio self * 48)
   /\ LineGen._actpixel (VGA.linegen self vga)
      = 8 * round (VGA._freq_ratio self * 640 / 8)
   /\ LineGen._hporch_front (VGA.linegen self vga)
      = round (VGA._freq_ratio self * 800)
        - (LineGen._actpixel (VGA.linegen self vga)
           + LineGen._hporch_sync (VGA.linegen self vga)
           + LineGen._hporch_back (VGA.linegen self vga)))
  /\ ((VGA._freq_ratio self < 101 # 100)%Q ->
      (1 <= VGA._freq_ratio self)%Q
      /\ LineGen._hporch_sync (VGA.linegen self vga) = 96
      /\ LineGen._hporch_back (VGA.linegen self vga) = 48
      /\ LineGen._actpixel (VGA.linegen self vga) = 640
      /\ LineGen._hporch_front (VGA.linegen self vga) = 16).
Proof.
  intros Hinit. destruct (init_ok_ratio _ _ _ _ Hinit) as [_ H1].
  split.
  - intros Hge. rewrite (linegen_above_gate self vga Hge).
    repeat split; reflexivity.
  - intros Hlt. rewrite (linegen_below_gate self vga Hlt).
    repeat split; try reflexivity. exact H1.
Qed.

Lemma scaled_horizontal_timing_witness :
  VGA.init "vga" 0 50400000
  = Ok {| VGA._res_name := "vga"; VGA._res_num := 0;
          VGA._freq_ratio := 20000 # 10000 |}
  /\ LineGen._hporch_sync
       (VGA.linegen {| VGA._res_name := "vga"; VGA._res_num := 0;
                       VGA._freq_ratio := 20000 # 10000 |} mister_vga)
     = round ((20000 # 10000) * 96).
Proof.
  assert (Hinit : VGA.init "vga" 0 50400000
                  = Ok {| VGA._res_name := "vga"; VGA._res_num := 0;
                          VGA._freq_ratio := 20000 # 10000 |})
    by reflexivity.
  split; [exact Hinit|].
  refine (proj1 (proj1 (scaled_horizontal_timing
                          "vga" 0 50400000 _ mister_vga Hinit) _)).
  vm_compute. discriminate.
Defined.

(** The statement of C4 for every ratio of at least 1 fails just below the
    gate: at 25 333 560 Hz the ratio is 1.0053, the sync width is the
    default 96 and [round(1.0053 * 96)] is 97. *)
Lemma scaled_timing_fails_below_gate :
  ~ (forall (clk_freq : Q) (self : VGA.t) (vga : VGA.pins),
        VGA.init "vga" 0 clk_freq = Ok self ->
        LineGen._hporch_sync (VGA.linegen self vga)
        = round (VGA._freq_ratio self * 96)
        /\ LineGen._hporch_back (VGA.linegen self vga)
           = round (VGA._freq_ratio self * 48)
        /\ LineGen._actpixel (VGA.linegen self vga)
           = 8 * round (VGA._freq_ratio self * 640 / 8)
        /\ LineGen._hporch_front (VGA.linegen self vga)
           = round (VGA._freq_ratio self * 800)
             - (LineGen._actpixel (VGA.linegen self vga)
                + LineGen._hporch_sync (VGA.linegen self vga)
                + LineGen._hporch_back (VGA.linegen self vga))).
Proof.
  intros Hall.
  assert (Hinit : VGA.init "vga" 0 25333560
                  = Ok {| VGA._res_name := "vga"; VGA._res_num := 0;
                          VGA._freq_ratio := 10053 # 10000 |})
    by reflexivity.
  destruct (Hall _ _ mister_vga Hinit) as [Hsync _].
  vm_compute in Hsync. discriminate.
Qed.

(** C9. For every configuration that [__init__] accepts (rounded ratio at
    least 1, so 1.0 and 2.0 among them) the four horizontal widths of the
    elaborated [LineGen] add up to its line length, which is 800 below the
    gate and [round(ratio * 800)] from 1.01 on, and the front porch is an
    integer that is not negative; the four vertical constants add up to
    [VTOTAL]. *)
Theorem timing_sum_invariant
        (res_name : string) (res_num : Z) (clk_freq : Q)
        (self : VGA.t) (vga : VGA.pins) :
  VGA.init res_name res_num clk_freq = Ok self ->
  LineGen._actpixel (VGA.linegen self vga)
  + LineGen._hporch_front (VGA.linegen self vga)
  + LineGen._hporch_sync (VGA.linegen self vga)
  + LineGen._hporch_back (VGA.linegen self vga)
  = LineGen._htotal (VGA.linegen self vga)
  /\ 0 <= LineGen._hporch_front (VGA.linegen self vga)
  /\ ((VGA._freq_ratio self < 101 # 100)%Q ->
      LineGen._htotal (VGA.linegen self vga) = HTOTAL)
  /\ ((101 # 100 <= VGA._freq_ratio self)%Q ->
      LineGen._htotal (VGA.linegen self vga)
      = round (VGA._freq_ratio self * 800))
  /\ ACTLINE + VPORCH_FRONT + VPORCH_SYNC + VPORCH_BACK = VTOTAL.
Proof.
  intros Hinit. destruct (init_ok_ratio _ _ _ _ Hinit) as [_ H1].
  pose proof (linegen_well_formed self vga H1) as (_ & Hf & _ & _ & Ha & Ht).
  split; [lia|]. split; [exact Hf|].
  split; [|split; [|reflexivity]].
  - intros Hlt. rewrite (linegen_below_gate self vga Hlt). reflexivity.
  - intros Hge. rewrite (linegen_above_gate self vga Hge).
    unfold LineGen.init. cbn [LineGen._htotal].
    change (inject_Z HTOTAL) with 800%Q.
    set (t := round (VGA._freq_ratio self * 800)).
    set (b := round _). set (sy := round _). set (bk := round _).
    clearbody t b sy bk. lia.
Qed.

Lemma timing_sum_invariant_witness :
  VGA.init "vga" 0 50400000
  = Ok {| VGA._res_name := "vga"; VGA._res_num := 0;
          VGA._freq_ratio := 20000 # 10000 |}
  /\ 1280 + 32 + 192 + 96
     = LineGen._htotal
         (VGA.linegen {| VGA._res_name := "vga"; VGA._res_num := 0;
                         VGA._freq_ratio := 20000 # 10000 |} mister_vga)
  /\ 0 <= 32.
Proof.
  assert (Hinit : VGA.init "vga" 0 50400000
                  = Ok {| VGA._res_name := "vga"; VGA._res_num := 0;
                          VGA._freq_ratio := 20000 # 10000 |})
    by reflexivity.
  destruct (timing_sum_invariant "vga" 0 50400000 _ mister_vga Hinit)
    as (Hsum & Hfront & _).
  exact (conj Hinit (conj Hsum Hfront)).
Defined.

(** * Further properties of the design *)

(** ** Register ranges *)

Section Ranges.

Variable lg : LineGen.t.
Hypothesis wf : LineGen.well_formed lg.

Let H := LineGen._htotal lg.
Let bc := LineGen._block_cycles lg.

Lemma at_pixel_ranges p :
  0 <= p < H ->
  0 <= LineGen.block_pixel (LineGen.at_pixel lg p) < bc
  /\ 0 <= LineGen.block (LineGen.at_pixel lg p) <= 8
  /\ (LineGen.block (LineGen.at_pixel lg p) < 8 <-> p < LineGen._actpixel lg).
Proof.
  intros Hp. destruct wf as (Hbc & _ & _ & _ & Ha & _). fold bc in Hbc, Ha.
  cbn [LineGen.at_pixel LineGen.block_pixel LineGen.block]. fold bc.
  pose proof (Z.mod_pos_bound p bc Hbc) as Hm.
  pose proof (Z.div_pos p bc ltac:(lia) Hbc) as Hd.
  split; [exact Hm|]. split; [lia|].
  rewrite Ha. split.
  - intros Hlt. assert (Hq : p / bc < 8) by lia.
    pose proof (Z.div_mod p bc ltac:(lia)). nia.
  - intros Hlt. assert (p / bc < 8) by (apply Z.div_lt_upper_bound; lia). lia.
Qed.

Lemma at_cycle_ranges c :
  0 <= c ->
  0 <= LineGen.pixel (VGA.linegen_state (VGA.at_cycle lg c)) < H
  /\ 0 <= VScanGen.line (VGA.vgen_state (VGA.at_cycle lg c)) < VTOTAL.
Proof.
  intros Hc. pose proof (htotal_ge_8 lg wf) as H8. fold H in H8.
  unfold VGA.at_cycle.
  cbn [VGA.linegen_state VGA.vgen_state LineGen.at_pixel LineGen.pixel
       VScanGen.line]. fold H.
  split; apply Z.mod_pos_bound; [lia|rewrite vtotal_value; lia].
Qed.

End Ranges.

(** X1. In every state reachable from reset the four registers hold values of
    the ranges they were declared with, so that no assignment was ever
    truncated, and the block register is below 8 exactly while the pixel
    counter is inside the active region. *)
Theorem registers_stay_in_range (lg : LineGen.t) (s : VGA.state) :
  LineGen.well_formed lg ->
  VGA.reachable lg s ->
  0 <= LineGen.pixel (VGA.linegen_state s) < LineGen._htotal lg
  /\ 0 <= LineGen.block_pixel (VGA.linegen_state s) < LineGen._block_cycles lg
  /\ 0 <= LineGen.block (VGA.linegen_state s) <= 8
  /\ 0 <= VScanGen.line (VGA.vgen_state s) < VTOTAL
  /\ (LineGen.block (VGA.linegen_state s) < 8 <->
      LineGen.pixel (VGA.linegen_state s) < LineGen._actpixel lg)
  /\ LineGen.pixel (VGA.linegen_state s) < 2 ^ LineGen.pixel_width lg
  /\ LineGen.block_pixel (VGA.linegen_state s)
     < 2 ^ LineGen.block_pixel_width lg
  /\ LineGen.block (VGA.linegen_state s) < 2 ^ LineGen.block_width
  /\ VScanGen.line (VGA.vgen_state s) < 2 ^ VScanGen.line_width.
Proof.
  intros wf Hreach.
  destruct (reachable_at_cycle lg wf s Hreach) as (c & Hc & ->).
  destruct (at_cycle_ranges lg wf c Hc) as [Hp Hl].
  unfold VGA.at_cycle in *.
  cbn [VGA.linegen_state VGA.vgen_state] in *.
  cbn [LineGen.at_pixel LineGen.pixel VScanGen.line] in Hp, Hl.
  destruct (at_pixel_ranges lg wf (c mod LineGen._htotal lg) Hp)
    as (Hbp & Hb & Hact).
  set (st := LineGen.at_pixel lg (c mod LineGen._htotal lg)) in *.
  assert (Hpix : LineGen.pixel st = c mod LineGen._htotal lg) by reflexivity.
  cbn [VScanGen.line]. rewrite Hpix.
  split; [exact Hp|]. split; [exact Hbp|]. split; [exact Hb|].
  split; [exact Hl|]. split; [exact Hact|].
  split; [apply range_width_fits; exact Hp|].
  split; [apply range_width_fits; exact Hbp|].
  split; [apply (range_width_fits 9); lia|].
  apply range_width_fits; exact Hl.
Qed.

Lemma registers_stay_in_range_witness :
  LineGen.well_formed mister_linegen
  /\ VGA.reachable mister_linegen (VGA.next mister_linegen VGA.reset)
  /\ 0 <= LineGen.pixel
            (VGA.linegen_state (VGA.next mister_linegen VGA.reset))
     < 800.
Proof.
  assert (wf : LineGen.well_formed mister_linegen)
    by well_formed_by_evaluation.
  assert (Hr : VGA.reachable mister_linegen (VGA.next mister_linegen VGA.reset))
    by (apply VGA.reach_next, VGA.reach_reset).
  split; [exact wf|]. split; [exact Hr|].
  exact (proj1 (registers_stay_in_range mister_linegen _ wf Hr)).
Defined.

(** ** The colour outputs of the composed design *)

Lemma drive_rgb lg s :
  (VGA.r_o (VGA.drive lg s), VGA.g_o (VGA.drive lg s), VGA.b_o (VGA.drive lg s))
  = LineGen.rgb lg (VScanGen.vporch (VGA.vgen_state s))
                (VScanGen.halfbrite (VGA.vgen_state s)) (VGA.linegen_state s).
Proof.
  unfold VGA.drive. destruct (LineGen.rgb _ _ _ _) as [[r g] b]. reflexivity.
Qed.

Lemma rgb_black_in_porch lg vporch halfbrite s :
  vporch = true \/ LineGen.block s = 8 ->
  LineGen.rgb lg vporch halfbrite s = (0, 0, 0).
Proof.
  unfold LineGen.rgb. intros [->| ->]; [reflexivity|].
  destruct vporch; reflexivity.
Qed.

Lemma rgb_of_colour_bars lg halfbrite s :
  0 <= LineGen.block s < 8 ->
  LineGen.rgb lg false halfbrite s
  = nth (Z.to_nat (LineGen.block s))
        (colour_bars (RGBOn.on (LineGen.r_shape lg) halfbrite)
                     (RGBOn.on (LineGen.g_shape lg) halfbrite)
                     (RGBOn.on (LineGen.b_shape lg) halfbrite))
        (0, 0, 0).
Proof.
  intros Hb. unfold LineGen.rgb.
  assert (Hcases : LineGen.block s = 0 \/ LineGen.block s = 1
                   \/ LineGen.block s = 2 \/ LineGen.block s = 3
                   \/ LineGen.block s = 4 \/ LineGen.block s = 5
                   \/ LineGen.block s = 6 \/ LineGen.block s = 7) by lia.
  repeat (destruct Hcases as [->|Hcases]; [reflexivity|]).
  rewrite Hcases. reflexivity.
Qed.

(** X2. Outside the active area the picture is black: whenever the pixel
    counter is at or beyond the active width, or the line counter at or
    beyond the active height, the three colour outputs are 0.  The sync
    outputs, which are active low, are asserted only there, so the colour is
    black whenever a sync pulse is driven. *)
Theorem black_outside_active (lg : LineGen.t) (s : VGA.state) :
  LineGen.well_formed lg ->
  VGA.reachable lg s ->
  (LineGen._actpixel lg <= LineGen.pixel (VGA.linegen_state s)
   \/ ACTLINE <= VScanGen.line (VGA.vgen_state s) ->
   (VGA.r_o (VGA.drive lg s), VGA.g_o (VGA.drive lg s),
    VGA.b_o (VGA.drive lg s)) = (0, 0, 0))
  /\ (VGA.hs_o (VGA.drive lg s) = false ->
      LineGen._actpixel lg <= LineGen.pixel (VGA.linegen_state s))
  /\ (VGA.vs_o (VGA.drive lg s) = false ->
      ACTLINE <= VScanGen.line (VGA.vgen_state s))
  /\ (VGA.hs_o (VGA.drive lg s) = false \/ VGA.vs_o (VGA.drive lg s) = false ->
      (VGA.r_o (VGA.drive lg s), VGA.g_o (VGA.drive lg s),
       VGA.b_o (VGA.drive lg s)) = (0, 0, 0)).
Proof.
  intros wf Hreach.
  assert (Hblack :
            LineGen._actpixel lg <= LineGen.pixel (VGA.linegen_state s)
            \/ ACTLINE <= VScanGen.line (VGA.vgen_state s) ->
            (VGA.r_o (VGA.drive lg s), VGA.g_o (VGA.drive lg s),
             VGA.b_o (VGA.drive lg s)) = (0, 0, 0)).
  { intros Hout. rewrite drive_rgb. apply rgb_black_in_porch.
    destruct Hout as [Hpix|Hline].
    - right.
      destruct (reachable_at_cycle lg wf s Hreach) as (c & Hc & ->).
      destruct (at_cycle_ranges lg wf c Hc) as [Hp _].
      unfold VGA.at_cycle in *. cbn [VGA.linegen_state] in *.
      cbn [LineGen.at_pixel LineGen.pixel] in Hp, Hpix.
      destruct (at_pixel_ranges lg wf _ Hp) as (_ & Hb & Hact). lia.
    - left. unfold VScanGen.vporch. now apply Z.leb_le. }
  assert (Hhs : VGA.hs_o (VGA.drive lg s) = false ->
                LineGen._actpixel lg <= LineGen.pixel (VGA.linegen_state s)).
  { unfold VGA.drive. destruct (LineGen.rgb _ _ _ _) as [[r g] b].
    cbn [VGA.hs_o]. rewrite negb_false_iff, hsync_window.
    destruct wf as (_ & Hf & _). lia. }
  assert (Hvs : VGA.vs_o (VGA.drive lg s) = false ->
                ACTLINE <= VScanGen.line (VGA.vgen_state s)).
  { unfold VGA.drive. destruct (LineGen.rgb _ _ _ _) as [[r g] b].
    cbn [VGA.vs_o]. rewrite negb_false_iff, vsync_window.
    unfold_timing. lia. }
  split; [exact Hblack|]. split; [exact Hhs|]. split; [exact Hvs|].
  intros [Hh|Hv]; apply Hblack; [left; now apply Hhs|right; now apply Hvs].
Qed.

Lemma reachable_run lg n s :
  VGA.reachable lg s -> VGA.reachable lg (VGA.run lg n s).
Proof.
  revert s. induction n as [|n IH]; intros s Hs; [exact Hs|].
  cbn [VGA.run]. apply IH. now constructor.
Qed.

Lemma black_outside_active_witness :
  LineGen.well_formed mister_linegen
  /\ VGA.reachable mister_linegen (VGA.run mister_linegen 700 VGA.reset)
  /\ (VGA.r_o (VGA.drive mister_linegen (VGA.run mister_linegen 700 VGA.reset)),
      VGA.g_o (VGA.drive mister_linegen (VGA.run mister_linegen 700 VGA.reset)),
      VGA.b_o (VGA.drive mister_linegen (VGA.run mister_linegen 700 VGA.reset)))
     = (0, 0, 0).
Proof.
  assert (wf : LineGen.well_formed mister_linegen)
    by well_formed_by_evaluation.
  assert (Hr : VGA.reachable mister_linegen
                 (VGA.run mister_linegen 700 VGA.reset))
    by (apply reachable_run, VGA.reach_reset).
  split; [exact wf|]. split; [exact Hr|].
  apply (proj1 (black_outside_active mister_linegen _ wf Hr)).
  left. vm_compute. discriminate.
Defined.

(** X3. Inside the active area the eight colour bars appear in the order of the
    [Switch] cases, each [_block_cycles] pixels wide: [n] cycles after reset,
    with the pixel counter [p = n mod _htotal] below the active width and the
    line counter [l = (n / _htotal) mod VTOTAL] below the active height, the
    colour outputs are bar number [p / _block_cycles], at the on values that
    bit 6 of [l] selects (half brightness on every second group of 64
    lines). *)
Theorem colour_bars_in_order (lg : LineGen.t) (n : nat) :
  LineGen.well_formed lg ->
  Z.of_nat n mod LineGen._htotal lg < LineGen._actpixel lg ->
  (Z.of_nat n / LineGen._htotal lg) mod VTOTAL < ACTLINE ->
  (VGA.r_o (VGA.drive lg (VGA.run lg n VGA.reset)),
   VGA.g_o (VGA.drive lg (VGA.run lg n VGA.reset)),
   VGA.b_o (VGA.drive lg (VGA.run lg n VGA.reset)))
  = nth (Z.to_nat (Z.of_nat n mod LineGen._htotal lg / LineGen._block_cycles lg))
        (colour_bars
           (RGBOn.on (LineGen.r_shape lg)
              (Z.testbit ((Z.of_nat n / LineGen._htotal lg) mod VTOTAL) 6))
           (RGBOn.on (LineGen.g_shape lg)
              (Z.testbit ((Z.of_nat n / LineGen._htotal lg) mod VTOTAL) 6))
           (RGBOn.on (LineGen.b_shape lg)
              (Z.testbit ((Z.of_nat n / LineGen._htotal lg) mod VTOTAL) 6)))
        (0, 0, 0).
Proof.
  intros wf Hpix Hline.
  rewrite drive_rgb, (run_from_reset lg wf).
  destruct (at_cycle_ranges lg wf (Z.of_nat n) ltac:(lia)) as [Hp _].
  unfold VGA.at_cycle in *. cbn [VGA.linegen_state VGA.vgen_state] in *.
  cbn [LineGen.at_pixel LineGen.pixel] in Hp.
  destruct (at_pixel_ranges lg wf _ Hp) as (_ & Hb & Hact).
  unfold VScanGen.vporch, VScanGen.halfbrite. cbn [VScanGen.line].
  replace (ACTLINE <=? _) with false by (symmetry; apply Z.leb_gt; exact Hline).
  rewrite rgb_of_colour_bars by (split; [lia|now apply Hact]).
  f_equal. f_equal.
  cbn [LineGen.at_pixel LineGen.block].
  apply Z.min_l.
  cbn [LineGen.at_pixel LineGen.block] in Hact.
  apply proj2 in Hact. specialize (Hact Hpix). lia.
Qed.

Lemma colour_bars_in_order_witness :
  LineGen.well_formed mister_linegen
  /\ Z.of_nat 400 mod 800 < 640
  /\ (Z.of_nat 400 / 800) mod VTOTAL < ACTLINE
  /\ (VGA.r_o (VGA.drive mister_linegen (VGA.run mister_linegen 400 VGA.reset)),
      VGA.g_o (VGA.drive mister_linegen (VGA.run mister_linegen 400 VGA.reset)),
      VGA.b_o (VGA.drive mister_linegen (VGA.run mister_linegen 400 VGA.reset)))
     = (63, 0, 63).
Proof.
  assert (wf : LineGen.well_formed mister_linegen)
    by well_formed_by_evaluation.
  assert (Hp : Z.of_nat 400 mod LineGen._htotal mister_linegen
               < LineGen._actpixel mister_linegen) by (vm_compute; reflexivity).
  assert (Hl : (Z.of_nat 400 / LineGen._htotal mister_linegen) mod VTOTAL
               < ACTLINE) by (vm_compute; reflexivity).
  split; [exact wf|]. split; [exact Hp|]. split; [exact Hl|].
  exact (colour_bars_in_order mister_linegen 400 wf Hp Hl).
Defined.

(** ** Amplitude of the colour outputs *)

Lemma on_bounds w halfbrite :
  0 < w ->
  0 <= RGBOn.on w halfbrite < 2 ^ w
  /\ (halfbrite = true -> RGBOn.on w halfbrite < 2 ^ (w - 1)).
Proof.
  intros Hw.
  assert (Hpow : 2 ^ w = 2 * 2 ^ (w - 1)).
  { rewrite <- Z.pow_succ_r by lia. f_equal. lia. }
  assert (Hpos : 0 < 2 ^ (w - 1)) by (apply Z.pow_pos_nonneg; lia).
  destruct halfbrite.
  - rewrite on_half by exact Hw. split; [lia|intros _; lia].
  - rewrite on_full by lia. split; [lia|discriminate].
Qed.

Lemma rgb_components lg vporch halfbrite s :
  (fst (fst (LineGen.rgb lg vporch halfbrite s)) = 0
   \/ fst (fst (LineGen.rgb lg vporch halfbrite s))
      = RGBOn.on (LineGen.r_shape lg) halfbrite)
  /\ (snd (fst (LineGen.rgb lg vporch halfbrite s)) = 0
      \/ snd (fst (LineGen.rgb lg vporch halfbrite s))
         = RGBOn.on (LineGen.g_shape lg) halfbrite)
  /\ (snd (LineGen.rgb lg vporch halfbrite s) = 0
      \/ snd (LineGen.rgb lg vporch halfbrite s)
         = RGBOn.on (LineGen.b_shape lg) halfbrite).
Proof.
  unfold LineGen.rgb. destruct vporch; [cbn; auto|].
  destruct (LineGen.block s) as [|q|q]; [cbn; auto| |cbn; auto].
  do 4 (try destruct q as [q|q|]); cbn; auto.
Qed.

(** X4. Whatever the registers hold, each colour output is a value of its
    channel's width, and on a line that [halfbrite] marks (bit 6 of the line
    counter set) it stays below half of full scale: its top bit is 0. *)
Theorem colour_outputs_fit (lg : LineGen.t) (s : VGA.state) :
  0 < LineGen.r_shape lg -> 0 < LineGen.g_shape lg -> 0 < LineGen.b_shape lg ->
  0 <= VGA.r_o (VGA.drive lg s) < 2 ^ LineGen.r_shape lg
  /\ 0 <= VGA.g_o (VGA.drive lg s) < 2 ^ LineGen.g_shape lg
  /\ 0 <= VGA.b_o (VGA.drive lg s) < 2 ^ LineGen.b_shape lg
  /\ (Z.testbit (VScanGen.line (VGA.vgen_state s)) 6 = true ->
      VGA.r_o (VGA.drive lg s) < 2 ^ (LineGen.r_shape lg - 1)
      /\ VGA.g_o (VGA.drive lg s) < 2 ^ (LineGen.g_shape lg - 1)
      /\ VGA.b_o (VGA.drive lg s) < 2 ^ (LineGen.b_shape lg - 1)).
Proof.
  intros Hr Hg Hb.
  pose proof (drive_rgb lg s) as Hd.
  pose proof (rgb_components lg (VScanGen.vporch (VGA.vgen_state s))
                (VScanGen.halfbrite (VGA.vgen_state s))
                (VGA.linegen_state s)) as (Cr & Cg & Cb).
  rewrite <- Hd in Cr, Cg, Cb. cbn [fst snd] in Cr, Cg, Cb.
  unfold VScanGen.halfbrite in *.
  set (hb := Z.testbit (VScanGen.line (VGA.vgen_state s)) 6) in *.
  destruct (on_bounds (LineGen.r_shape lg) hb Hr) as [Br Hr2].
  destruct (on_bounds (LineGen.g_shape lg) hb Hg) as [Bg Hg2].
  destruct (on_bounds (LineGen.b_shape lg) hb Hb) as [Bb Hb2].
  assert (Pr : 0 < 2 ^ (LineGen.r_shape lg - 1)) by (apply Z.pow_pos_nonneg; lia).
  assert (Pg : 0 < 2 ^ (LineGen.g_shape lg - 1)) by (apply Z.pow_pos_nonneg; lia).
  assert (Pb : 0 < 2 ^ (LineGen.b_shape lg - 1)) by (apply Z.pow_pos_nonneg; lia).
  split; [destruct Cr as [->| ->]; lia|].
  split; [destruct Cg as [->| ->]; lia|].
  split; [destruct Cb as [->| ->]; lia|].
  intros Hhb. specialize (Hr2 Hhb). specialize (Hg2 Hhb). specialize (Hb2 Hhb).
  split; [destruct Cr as [->| ->]; lia|].
  split; [destruct Cg as [->| ->]; lia|destruct Cb as [->| ->]; lia].
Qed.

Lemma colour_outputs_fit_witness :
  0 < 6
  /\ 0 <= VGA.r_o (VGA.drive mister_linegen (VGA.at_cycle mister_linegen 51200))
     < 2 ^ 6
  /\ VGA.r_o (VGA.drive mister_linegen (VGA.at_cycle mister_linegen 51200))
     < 2 ^ (6 - 1).
Proof.
  assert (H6 : 0 < 6) by lia.
  destruct (colour_outputs_fit mister_linegen
              (VGA.at_cycle mister_linegen 51200) H6 H6 H6)
    as (Hr & _ & _ & Hhalf).
  split; [exact H6|]. split; [exact Hr|].
  exact (proj1 (Hhalf eq_refl)).
Defined.

(** X5. Half brightness halves the amplitude: the on value under [halfbrite] is
    the full on value shifted right by one bit; a channel of a single bit is
    switched off by it. *)
Theorem halfbrite_halves (w : Z) :
  0 < w ->
  RGBOn.on w true = Z.shiftr (RGBOn.on w false) 1
  /\ RGBOn.on w true = RGBOn.on w false / 2
  /\ RGBOn.on w false = 2 * RGBOn.on w true + 1
  /\ RGBOn.on 1 true = 0.
Proof.
  intros Hw.
  assert (Hpow : 2 ^ w = 2 * 2 ^ (w - 1)).
  { rewrite <- Z.pow_succ_r by lia. f_equal. lia. }
  rewrite on_half, on_full by lia.
  assert (Hdiv : (2 ^ w - 1) / 2 = 2 ^ (w - 1) - 1).
  { symmetry. apply Z.div_unique with (r := 1); lia. }
  split; [rewrite Z.shiftr_div_pow2 by lia; change (2 ^ 1) with 2; lia|].
  split; [lia|]. split; [lia|reflexivity].
Qed.

Lemma halfbrite_halves_witness :
  0 < 6 /\ RGBOn.on 6 true = Z.shiftr (RGBOn.on 6 false) 1.
Proof.
  assert (H6 : 0 < 6) by lia.
  split; [exact H6|]. exact (proj1 (halfbrite_halves 6 H6)).
Defined.

(** ** The frame: period and pulse counts *)

Lemma count_values_add f n m :
  count_values f (n + m)
  = (count_values f n + count_values (fun v => f (Z.of_nat n + v)%Z) m)%nat.
Proof.
  induction m as [|m IH].
  - rewrite Nat.add_0_r. cbn [count_values]. lia.
  - rewrite Nat.add_succ_r. cbn [count_values].
    rewrite IH, Nat2Z.inj_add. lia.
Qed.

Lemma count_values_const (b : bool) n :
  count_values (fun _ => b) n = if b then n else 0%nat.
Proof.
  induction n as [|n IH]; cbn [count_values]; [now destruct b|].
  rewrite IH. destruct b; lia.
Qed.

Lemma count_by_position (g : Z -> bool) (h v : nat) :
  (0 < h)%nat ->
  count_values (fun c => g (c mod Z.of_nat h)) (v * h)
  = (v * count_values g h)%nat.
Proof.
  intros Hh. induction v as [|v IH]; [reflexivity|].
  rewrite Nat.mul_succ_l, count_values_add, IH. cbv beta.
  assert (Hline :
            count_values
              (fun x => g ((Z.of_nat (v * h) + x) mod Z.of_nat h)) h
            = count_values g h).
  { apply count_values_ext. intros x Hx. f_equal.
    rewrite Nat2Z.inj_mul, Z.add_comm, Z.mod_add by lia.
    apply Z.mod_small. lia. }
  rewrite Hline. lia.
Qed.

Lemma count_by_line (g : Z -> bool) (h v : nat) :
  (0 < h)%nat ->
  count_values (fun c => g (c / Z.of_nat h)) (v * h)
  = (h * count_values g v)%nat.
Proof.
  intros Hh. induction v as [|v IH]; [cbn; lia|].
  rewrite Nat.mul_succ_l, count_values_add, IH. cbv beta.
  assert (Hline :
            count_values
              (fun x => g ((Z.of_nat (v * h) + x) / Z.of_nat h)) h
            = count_values (fun _ => g (Z.of_nat v)) h).
  { apply count_values_ext. intros x Hx. f_equal.
    rewrite Nat2Z.inj_mul, Z.add_comm, Z.div_add by lia.
    rewrite Z.div_small by lia. lia. }
  rewrite Hline, count_values_const. cbn [count_values].
  destruct (g (Z.of_nat v)); lia.
Qed.

Section FramePeriod.

Variable lg : LineGen.t.
Hypothesis wf : LineGen.well_formed lg.

Let H := LineGen._htotal lg.

Lemma at_cycle_plus_frames c k :
  0 <= k -> VGA.at_cycle lg (c + k * (H * VTOTAL)) = VGA.at_cycle lg c.
Proof.
  intros Hk. pose proof (htotal_ge_8 lg wf) as H8. fold H in H8.
  unfold VGA.at_cycle. fold H.
  replace (c + k * (H * VTOTAL)) with (c + k * VTOTAL * H) by lia.
  rewrite Z.mod_add, Z.div_add by lia.
  rewrite Z.mod_add by (rewrite vtotal_value; lia).
  reflexivity.
Qed.

Lemma at_cycle_is_reset c :
  0 <= c ->
  VGA.at_cycle lg c = VGA.reset <-> c mod (H * VTOTAL) = 0.
Proof.
  intros Hc. pose proof (htotal_ge_8 lg wf) as H8. fold H in H8.
  pose proof (block_cycles_pos lg wf) as Hbc.
  assert (HV : 0 < VTOTAL) by (rewrite vtotal_value; lia).
  rewrite Z.rem_mul_r by lia.
  pose proof (Z.mod_pos_bound c H ltac:(lia)) as Hm.
  pose proof (Z.mod_pos_bound (c / H) VTOTAL HV) as Hl.
  split.
  - intros Heq.
    assert (Hpix : LineGen.pixel (VGA.linegen_state (VGA.at_cycle lg c)) = 0)
      by (rewrite Heq; reflexivity).
    assert (Hline : VScanGen.line (VGA.vgen_state (VGA.at_cycle lg c)) = 0)
      by (rewrite Heq; reflexivity).
    unfold VGA.at_cycle in Hpix, Hline.
    cbn [VGA.linegen_state VGA.vgen_state LineGen.at_pixel LineGen.pixel
         VScanGen.line] in Hpix, Hline.
    fold H in Hpix, Hline. rewrite Hpix, Hline. lia.
  - intros Hz.
    assert (Hpix : c mod H = 0) by nia.
    assert (Hline : (c / H) mod VTOTAL = 0) by nia.
    unfold VGA.at_cycle, VGA.reset, LineGen.at_pixel, LineGen.reset,
      VScanGen.reset.
    fold H. rewrite Hpix, Hline.
    rewrite Z.mod_0_l, Z.div_0_l by lia. reflexivity.
Qed.

End FramePeriod.

(** X6. The design is periodic with the frame as its period: after
    [_htotal * VTOTAL] clock edges every reachable state recurs, the
    registers of [LineGen] already recur after [_htotal] edges, and the reset
    state is met again exactly at the multiples of [_htotal * VTOTAL]. *)
Theorem frame_period (lg : LineGen.t) :
  LineGen.well_formed lg ->
  (forall s,
      VGA.reachable lg s ->
      VGA.run lg (Z.to_nat (LineGen._htotal lg * VTOTAL)) s = s)
  /\ (forall s,
        VGA.reachable lg s ->
        VGA.linegen_state (VGA.run lg (Z.to_nat (LineGen._htotal lg)) s)
        = VGA.linegen_state s)
  /\ (forall n : nat,
        VGA.run lg n VGA.reset = VGA.reset <->
        Z.of_nat n mod (LineGen._htotal lg * VTOTAL) = 0).
Proof.
  intros wf. pose proof (htotal_ge_8 lg wf) as H8.
  assert (HV : 0 < VTOTAL) by (rewrite vtotal_value; lia).
  split; [|split].
  - intros s Hreach.
    destruct (reachable_at_cycle lg wf s Hreach) as (c & Hc & ->).
    rewrite (run_at_cycle lg wf) by exact Hc.
    rewrite Z2Nat.id by nia.
    replace (c + LineGen._htotal lg * VTOTAL)
      with (c + 1 * (LineGen._htotal lg * VTOTAL)) by lia.
    apply (at_cycle_plus_frames lg wf). lia.
  - intros s Hreach.
    destruct (reachable_at_cycle lg wf s Hreach) as (c & Hc & ->).
    rewrite (run_at_cycle lg wf) by exact Hc.
    rewrite Z2Nat.id by lia.
    unfold VGA.at_cycle. cbn [VGA.linegen_state].
    replace (c + LineGen._htotal lg) with (c + 1 * LineGen._htotal lg) by lia.
    rewrite Z.mod_add by lia. reflexivity.
  - intros n. rewrite (run_from_reset lg wf).
    apply (at_cycle_is_reset lg wf). lia.
Qed.

Lemma frame_period_witness :
  LineGen.well_formed mister_linegen
  /\ VGA.reachable mister_linegen (VGA.next mister_linegen VGA.reset)
  /\ VGA.run mister_linegen (Z.to_nat (800 * 525))
       (VGA.next mister_linegen VGA.reset)
     = VGA.next mister_linegen VGA.reset.
Proof.
  assert (wf : LineGen.well_formed mister_linegen)
    by well_formed_by_evaluation.
  assert (Hr : VGA.reachable mister_linegen (VGA.next mister_linegen VGA.reset))
    by (apply VGA.reach_next, VGA.reach_reset).
  split; [exact wf|]. split; [exact Hr|].
  exact (proj1 (frame_period mister_linegen wf) _ Hr).
Defined.

Section FrameCounts.

Variable lg : LineGen.t.
Hypothesis wf : LineGen.well_formed lg.

Let H := LineGen._htotal lg.

Lemma frame_cycles :
  Z.to_nat (H * VTOTAL) = (Z.to_nat VTOTAL * Z.to_nat H)%nat
  /\ (0 < Z.to_nat H)%nat
  /\ Z.of_nat (Z.to_nat H) = H.
Proof.
  pose proof (htotal_ge_8 lg wf) as H8. fold H in H8.
  rewrite vtotal_value. split; [|split]; lia.
Qed.

Lemma count_frame_by_position (out : VGA.state -> bool) (g : Z -> bool) :
  (forall c, 0 <= c -> out (VGA.at_cycle lg c) = g (c mod H)) ->
  VGA.count_cycles lg out (Z.to_nat (H * VTOTAL)) VGA.reset
  = (Z.to_nat VTOTAL * count_values g (Z.to_nat H))%nat.
Proof.
  intros Hout. destruct frame_cycles as (-> & Hpos & Hid).
  rewrite (count_cycles_values lg wf).
  rewrite <- count_by_position by exact Hpos.
  apply count_values_ext. intros c Hc. rewrite Hid. apply Hout. lia.
Qed.

Lemma count_frame_by_line (out : VGA.state -> bool) (g : Z -> bool) :
  (forall c, 0 <= c -> out (VGA.at_cycle lg c) = g ((c / H) mod VTOTAL)) ->
  VGA.count_cycles lg out (Z.to_nat (H * VTOTAL)) VGA.reset
  = (Z.to_nat H * count_values g (Z.to_nat VTOTAL))%nat.
Proof.
  intros Hout. destruct frame_cycles as (-> & Hpos & Hid).
  pose proof (htotal_ge_8 lg wf) as H8. fold H in H8.
  rewrite (count_cycles_values lg wf).
  rewrite <- count_by_line by exact Hpos.
  apply count_values_ext. intros c Hc. rewrite Hid, Hout by lia.
  f_equal. apply Z.mod_small.
  split; [apply Z.div_pos; lia|].
  apply Z.div_lt_upper_bound; [lia|].
  rewrite Nat2Z.inj_mul, Hid in Hc. rewrite vtotal_value in *. lia.
Qed.

End FrameCounts.

Lemma drive_sync lg s :
  VGA.hs_o (VGA.drive lg s) = negb (LineGen.hsync lg (VGA.linegen_state s))
  /\ VGA.vs_o (VGA.drive lg s) = negb (VScanGen.vsync (VGA.vgen_state s)).
Proof.
  unfold VGA.drive. destruct (LineGen.rgb _ _ _ _) as [[r g] b].
  split; reflexivity.
Qed.

(** X7. Pulse counts of one frame, the [_htotal * VTOTAL] cycles after reset:
    [newline] is high on exactly [VTOTAL] cycles; the [hs] output is low on
    exactly [_hporch_sync] cycles of each of the [VTOTAL] lines; the [vs]
    output is low for exactly [VPORCH_SYNC] whole lines; and vertical
    blanking lasts [VTOTAL - ACTLINE] whole lines. *)
Theorem pulses_per_frame (lg : LineGen.t) :
  LineGen.well_formed lg ->
  VGA.count_cycles lg (VGA.newline lg)
    (Z.to_nat (LineGen._htotal lg * VTOTAL)) VGA.reset
  = Z.to_nat VTOTAL
  /\ VGA.count_cycles lg (fun s => negb (VGA.hs_o (VGA.drive lg s)))
       (Z.to_nat (LineGen._htotal lg * VTOTAL)) VGA.reset
     = Z.to_nat (VTOTAL * LineGen._hporch_sync lg)
  /\ VGA.count_cycles lg (fun s => negb (VGA.vs_o (VGA.drive lg s)))
       (Z.to_nat (LineGen._htotal lg * VTOTAL)) VGA.reset
     = Z.to_nat (LineGen._htotal lg * VPORCH_SYNC)
  /\ VGA.count_cycles lg (fun s => VScanGen.vporch (VGA.vgen_state s))
       (Z.to_nat (LineGen._htotal lg * VTOTAL)) VGA.reset
     = Z.to_nat (LineGen._htotal lg * (VTOTAL - ACTLINE)).
Proof.
  intros wf. pose proof (htotal_ge_8 lg wf) as H8.
  pose proof wf as (Hbc & Hf & Hs & Hb & Ha & Ht).
  split; [|split; [|split]].
  - rewrite (count_frame_by_position lg wf _
               (fun p => (LineGen._htotal lg - 1 <=? p)
                         && (p <? LineGen._htotal lg))).
    + rewrite count_values_interval by lia. lia.
    + intros c Hc. unfold VGA.newline, LineGen.newline, VGA.at_cycle.
      cbn [VGA.linegen_state LineGen.at_pixel LineGen.pixel].
      pose proof (Z.mod_pos_bound c (LineGen._htotal lg) ltac:(lia)).
      destruct (Z.eqb_spec (c mod LineGen._htotal lg) (LineGen._htotal lg - 1)),
        (Z.leb_spec (LineGen._htotal lg - 1) (c mod LineGen._htotal lg)),
        (Z.ltb_spec (c mod LineGen._htotal lg) (LineGen._htotal lg));
        cbn [andb]; try reflexivity; lia.
  - rewrite (count_frame_by_position lg wf _
               (fun p => (LineGen._actpixel lg + LineGen._hporch_front lg <=? p)
                         && (p <? LineGen._actpixel lg + LineGen._hporch_front lg
                                  + LineGen._hporch_sync lg))).
    + rewrite count_values_interval by lia. rewrite vtotal_value. nia.
    + intros c Hc. rewrite (proj1 (drive_sync lg _)), negb_involutive.
      reflexivity.
  - rewrite (count_frame_by_line lg wf _
               (fun l => (ACTLINE + VPORCH_FRONT <=? l)
                         && (l <? ACTLINE + VPORCH_FRONT + VPORCH_SYNC))).
    + rewrite count_values_interval by (unfold_timing; lia).
      unfold_timing. nia.
    + intros c Hc. rewrite (proj2 (drive_sync lg _)), negb_involutive.
      reflexivity.
  - rewrite (count_frame_by_line lg wf _
               (fun l => (ACTLINE <=? l) && (l <? VTOTAL))).
    + rewrite count_values_interval by (unfold_timing; lia).
      unfold_timing. nia.
    + intros c Hc. unfold VScanGen.vporch, VGA.at_cycle.
      cbn [VGA.vgen_state VScanGen.line].
      pose proof (Z.mod_pos_bound (c / LineGen._htotal lg) VTOTAL
                    ltac:(rewrite vtotal_value; lia)) as Hl.
      destruct (Z.ltb_spec ((c / LineGen._htotal lg) mod VTOTAL) VTOTAL);
        [now rewrite andb_true_r|lia].
Qed.

Lemma pulses_per_frame_witness :
  LineGen.well_formed mister_linegen
  /\ VGA.count_cycles mister_linegen (VGA.newline mister_linegen)
       (Z.to_nat (800 * 525)) VGA.reset
     = Z.to_nat 525.
Proof.
  assert (wf : LineGen.well_formed mister_linegen)
    by well_formed_by_evaluation.
  split; [exact wf|].
  exact (proj1 (pulses_per_frame mister_linegen wf)).
Defined.

(** ** Acceptance threshold and accuracy of the clock ratio *)

Lemma decimal_ratio_lt_1 (k : Z) :
  (inject_Z k / inject_Z (10 ^ 4) < 1)%Q <-> k < 10000.
Proof.
  change (inject_Z (10 ^ 4)) with (10000 # 1)%Q.
  unfold Qlt, Qdiv, Qmult, Qinv. cbn. lia.
Qed.

Lemma scaled_clock (clk_freq : Q) :
  (clk_freq / VGA.base_freq * inject_Z (10 ^ 4) == clk_freq * (1 # 2520))%Q.
Proof.
  unfold VGA.base_freq. change (inject_Z (10 ^ 4)) with (10000 # 1)%Q. field.
Qed.

(** X8. [__init__] accepts every clock of at least 25.2 MHz.  Because the ratio
    is rounded before it is compared, the exact limit lies lower: every
    clock above 25 198 740 Hz (ratio above 0.99995) is accepted and every
    clock below it is rejected with [ValueError]. *)
Theorem init_threshold (res_name : string) (res_num : Z) (clk_freq : Q) :
  ((25200000 <= clk_freq)%Q ->
   exists self, VGA.init res_name res_num clk_freq = Ok self)
  /\ ((25198740 < clk_freq)%Q ->
      exists self, VGA.init res_name res_num clk_freq = Ok self)
  /\ ((clk_freq < 25198740)%Q ->
      exists msg, VGA.init res_name res_num clk_freq = Raise (ValueError msg)).
Proof.
  pose proof (round_bounds (clk_freq / VGA.base_freq * inject_Z (10 ^ 4)))
    as Hb.
  pose proof (scaled_clock clk_freq) as Hy.
  assert (Hhigh : (25198740 < clk_freq)%Q ->
                  exists self, VGA.init res_name res_num clk_freq = Ok self).
  { intros Hclk.
    destruct (init_cases res_name res_num clk_freq)
      as [[Hlt _]|[_ Hok]]; [exfalso|exact Hok].
    unfold round_ndigits in Hlt.
    apply (proj1 (decimal_ratio_lt_1 _)) in Hlt.
    set (y := (clk_freq / VGA.base_freq * inject_Z (10 ^ 4))%Q) in *.
    set (k := round y) in *.
    assert (Hk : (inject_Z k <= inject_Z 9999)%Q)
      by (rewrite <- Zle_Qle; clearbody k; lia).
    change (inject_Z 9999) with 9999%Q in Hk. lra. }
  split; [intros Hclk; apply Hhigh; lra|].
  split; [exact Hhigh|].
  intros Hclk.
  destruct (init_cases res_name res_num clk_freq)
    as [[_ Hraise]|[Hge _]]; [exact Hraise|exfalso].
  unfold round_ndigits in Hge.
  apply Qle_not_lt in Hge. apply Hge.
  apply (proj2 (decimal_ratio_lt_1 _)).
  set (y := (clk_freq / VGA.base_freq * inject_Z (10 ^ 4))%Q) in *.
  set (k := round y) in *.
  assert (Hk : (inject_Z k < inject_Z 10000)%Q)
    by (change (inject_Z 10000) with 10000%Q; lra).
  rewrite <- Zlt_Qlt in Hk. exact Hk.
Qed.

Lemma init_threshold_witness :
  (25198740 < 25199000)%Q
  /\ exists self, VGA.init "vga" 0 25199000 = Ok self.
Proof.
  assert (Hclk : (25198740 < 25199000)%Q) by reflexivity.
  split; [exact Hclk|].
  exact (proj1 (proj2 (init_threshold "vga" 0 25199000)) Hclk).
Defined.



(** ** Accuracy of the scaled horizontal timing *)





(** ** Width of the colour bars *)



(** ** Recovery from arbitrary register contents *)

Lemma run_app lg n m s :
  VGA.run lg (n + m) s = VGA.run lg m (VGA.run lg n s).
Proof.
  revert s. induction n as [|n IH]; intros s; [reflexivity|].
  cbn [Nat.add VGA.run]. apply IH.
Qed.

Lemma assign_zero w : Amaranth.assign w 0 = 0.
Proof. unfold Amaranth.assign. apply Z.land_0_l. Qed.

Lemma reachable_at_cycle_of lg (wf : LineGen.well_formed lg) c :
  0 <= c -> VGA.reachable lg (VGA.at_cycle lg c).
Proof.
  intros Hc. rewrite <- (Z2Nat.id c Hc), <- (run_from_reset lg wf).
  apply reachable_run, VGA.reach_reset.
Qed.

Section Recovery.

Variable lg : LineGen.t.
Hypothesis wf : LineGen.well_formed lg.

Let H := LineGen._htotal lg.
Let wp := LineGen.pixel_width lg.

Lemma pixel_width_fits : 8 <= H /\ H - 1 < 2 ^ wp /\ 0 <= wp.
Proof.
  pose proof (htotal_ge_8 lg wf) as H8. fold H in H8.
  split; [exact H8|]. split.
  - apply range_width_fits. lia.
  - apply range_width_nonneg.
Qed.

(** A clock edge away from the end of the line: the pixel register counts,
    or overflows to 0 at the top of its range; the line register holds. *)
Lemma next_mid_line s :
  0 <= LineGen.pixel (VGA.linegen_state s) < 2 ^ wp ->
  LineGen.pixel (VGA.linegen_state s) <> H - 1 ->
  LineGen.pixel (VGA.linegen_state (VGA.next lg s))
  = (if LineGen.pixel (VGA.linegen_state s) + 1 =? 2 ^ wp then 0
     else LineGen.pixel (VGA.linegen_state s) + 1)
  /\ VGA.vgen_state (VGA.next lg s) = VGA.vgen_state s.
Proof.
  intros Hp Hne. destruct pixel_width_fits as (_ & _ & Hw).
  unfold VGA.next. cbn [VGA.linegen_state VGA.vgen_state].
  rewrite pixel_next. unfold LineGen.newline. fold H wp.
  apply Z.eqb_neq in Hne. rewrite Hne. cbn [VScanGen.next].
  split; [|reflexivity].
  rewrite assign_mod by exact Hw.
  destruct (Z.eqb_spec (LineGen.pixel (VGA.linegen_state s) + 1) (2 ^ wp))
    as [->|Hlt].
  - apply Z.mod_same. lia.
  - apply Z.mod_small. lia.
Qed.

(** The clock edge at the end of the line resets the registers of
    [LineGen] and lets the line register take its step. *)
Lemma next_end_of_line s :
  LineGen.pixel (VGA.linegen_state s) = H - 1 ->
  VGA.next lg s
  = {| VGA.linegen_state := LineGen.reset;
       VGA.vgen_state := VScanGen.next true (VGA.vgen_state s) |}.
Proof.
  intros Hlast. unfold VGA.next, LineGen.next, LineGen.newline. fold H.
  apply Z.eqb_eq in Hlast. rewrite Hlast, !assign_zero. reflexivity.
Qed.

Lemma run_mid_line k s :
  0 <= LineGen.pixel (VGA.linegen_state s) ->
  LineGen.pixel (VGA.linegen_state s) + Z.of_nat k < 2 ^ wp ->
  (LineGen.pixel (VGA.linegen_state s) + Z.of_nat k <= H - 1
   \/ H - 1 < LineGen.pixel (VGA.linegen_state s)) ->
  LineGen.pixel (VGA.linegen_state (VGA.run lg k s))
  = LineGen.pixel (VGA.linegen_state s) + Z.of_nat k
  /\ VGA.vgen_state (VGA.run lg k s) = VGA.vgen_state s.
Proof.
  revert s. induction k as [|k IH]; intros s Hp Hend Hside.
  - cbn [VGA.run]. split; [lia|reflexivity].
  - cbn [VGA.run].
    destruct (next_mid_line s ltac:(lia) ltac:(lia)) as [Hpix Hv].
    destruct (Z.eqb_spec (LineGen.pixel (VGA.linegen_state s) + 1) (2 ^ wp));
      [lia|].
    destruct (IH (VGA.next lg s)) as [Hpix' Hv']; try (rewrite Hpix; lia).
    rewrite Hpix', Hv', Hpix, Hv. split; [lia|reflexivity].
Qed.

(** From pixel counter 0 a whole line later: [LineGen] is in its reset
    state again and the line register has taken one step. *)
Lemma run_to_end_of_line s :
  0 <= LineGen.pixel (VGA.linegen_state s) <= H - 1 ->
  VGA.run lg (Z.to_nat (H - LineGen.pixel (VGA.linegen_state s))) s
  = {| VGA.linegen_state := LineGen.reset;
       VGA.vgen_state := VScanGen.next true (VGA.vgen_state s) |}.
Proof.
  intros Hp. destruct pixel_width_fits as (H8 & Hfit & Hw).
  replace (Z.to_nat (H - LineGen.pixel (VGA.linegen_state s)))
    with (Z.to_nat (H - 1 - LineGen.pixel (VGA.linegen_state s)) + 1)%nat
    by lia.
  rewrite run_app.
  destruct (run_mid_line
              (Z.to_nat (H - 1 - LineGen.pixel (VGA.linegen_state s))) s)
    as [Hpix Hv]; try lia.
  cbn [VGA.run]. rewrite next_end_of_line by lia. now rewrite Hv.
Qed.

Lemma run_to_line_start s :
  0 <= LineGen.pixel (VGA.linegen_state s) < 2 ^ wp ->
  exists n,
    Z.of_nat n <= 2 ^ wp + H
    /\ VGA.run lg n s
       = {| VGA.linegen_state := LineGen.reset;
            VGA.vgen_state := VScanGen.next true (VGA.vgen_state s) |}.
Proof.
  intros Hp. destruct pixel_width_fits as (H8 & Hfit & Hw).
  destruct (Z.le_gt_cases (LineGen.pixel (VGA.linegen_state s)) (H - 1))
    as [Hin|Hout].
  - exists (Z.to_nat (H - LineGen.pixel (VGA.linegen_state s))).
    split; [lia|]. apply run_to_end_of_line. lia.
  - set (k := Z.to_nat (2 ^ wp - 1 - LineGen.pixel (VGA.linegen_state s))).
    destruct (run_mid_line k s) as [Hpix Hv]; try (subst k; lia).
    destruct (next_mid_line (VGA.run lg k s)) as [Hpix1 Hv1];
      try (rewrite Hpix; subst k; lia).
    rewrite Hpix in Hpix1.
    replace (LineGen.pixel (VGA.linegen_state s) + Z.of_nat k + 1 =? 2 ^ wp)
      with true in Hpix1 by (symmetry; apply Z.eqb_eq; subst k; lia).
    exists (k + 1 + Z.to_nat H)%nat. split; [subst k; lia|].
    rewrite !run_app. cbn [VGA.run].
    pose proof (run_to_end_of_line (VGA.next lg (VGA.run lg k s))) as Hrun.
    rewrite Hpix1, Z.sub_0_r in Hrun. rewrite Hrun by lia.
    now rewrite Hv1, Hv.
Qed.

(** With [LineGen] at the start of a line, a line register beyond the frame
    counts up to the top of its range, overflows to 0, and the state is then
    one that is reachable from reset. *)
Lemma run_to_frame (m : nat) (l : Z) :
  0 <= l < 2 ^ VScanGen.line_width ->
  (VTOTAL <= l -> 2 ^ VScanGen.line_width - l <= Z.of_nat m) ->
  exists n,
    Z.of_nat n <= Z.of_nat m * H
    /\ VGA.reachable lg
         (VGA.run lg n {| VGA.linegen_state := LineGen.reset;
                          VGA.vgen_state := {| VScanGen.line := l |} |}).
Proof.
  destruct pixel_width_fits as (H8 & Hfit & Hw).
  pose proof (block_cycles_pos lg wf) as Hbc.
  change (2 ^ VScanGen.line_width) with 1024. rewrite vtotal_value.
  revert l. induction m as [|m IH]; intros l Hl Hm.
  - exists 0%nat. split; [lia|]. cbn [VGA.run].
    replace {| VGA.linegen_state := LineGen.reset;
               VGA.vgen_state := {| VScanGen.line := l |} |}
      with (VGA.at_cycle lg (l * H)); [apply (reachable_at_cycle_of lg wf); nia|].
    unfold VGA.at_cycle, LineGen.at_pixel, LineGen.reset. fold H.
    rewrite Z.mod_mul, Z.div_mul by lia.
    rewrite Z.mod_0_l, Z.div_0_l by lia.
    rewrite vtotal_value, Z.mod_small by lia. reflexivity.
  - destruct (Z.lt_ge_cases l 525) as [Hin|Hout].
    + destruct (IH l Hl ltac:(lia)) as (n & Hn & Hreach).
      exists n. split; [lia|exact Hreach].
    + pose proof (run_to_end_of_line
                    {| VGA.linegen_state := LineGen.reset;
                       VGA.vgen_state := {| VScanGen.line := l |} |}) as Hrun.
      cbn [VGA.linegen_state VGA.vgen_state LineGen.reset LineGen.pixel] in Hrun.
      rewrite Z.sub_0_r in Hrun. specialize (Hrun ltac:(lia)).
      unfold VScanGen.next in Hrun. cbn [VScanGen.line] in Hrun.
      rewrite vtotal_value in Hrun.
      replace (l =? 525 - 1) with false in Hrun
        by (symmetry; apply Z.eqb_neq; lia).
      rewrite assign_mod in Hrun by (apply range_width_nonneg).
      change (2 ^ VScanGen.line_width) with 1024 in Hrun.
      destruct (IH ((l + 1) mod 1024)) as (n & Hn & Hreach).
      * apply Z.mod_pos_bound. lia.
      * intros Hge.
        destruct (Z.eq_dec l 1023) as [->|Hne]; [cbn in Hge; lia|].
        rewrite Z.mod_small in * by lia. lia.
      * exists (Z.to_nat H + n)%nat. split; [lia|].
        rewrite run_app, Hrun. exact Hreach.
Qed.

End Recovery.

(** X12. Whatever values the pixel and line registers hold within their widths,
    and whatever the block registers hold, clocking the design brings it
    into a state that is reachable from reset, after at most
    [2 ^ pixel_width + 500 * _htotal] cycles: the pixel register counts up to
    the end of the line, or overflows to 0 first, the end of the line resets
    the registers of [LineGen], and a line register beyond the frame
    overflows to 0. *)
Theorem recovers_from_any_registers (lg : LineGen.t) (s : VGA.state) :
  LineGen.well_formed lg ->
  0 <= LineGen.pixel (VGA.linegen_state s) < 2 ^ LineGen.pixel_width lg ->
  0 <= VScanGen.line (VGA.vgen_state s) < 2 ^ VScanGen.line_width ->
  exists n,
    Z.of_nat n <= 2 ^ LineGen.pixel_width lg + 500 * LineGen._htotal lg
    /\ VGA.reachable lg (VGA.run lg n s).
Proof.
  intros wf Hp Hl.
  destruct (run_to_line_start lg wf s Hp) as (n1 & Hn1 & Hrun1).
  destruct (pixel_width_fits lg wf) as (H8 & _ & _).
  assert (Hl1 : 0 <= VScanGen.line (VScanGen.next true (VGA.vgen_state s))
                < 2 ^ VScanGen.line_width).
  { unfold VScanGen.next. cbn [VScanGen.line].
    rewrite assign_mod by apply range_width_nonneg.
    apply Z.mod_pos_bound. reflexivity. }
  destruct (VScanGen.next true (VGA.vgen_state s)) as [l1].
  cbn [VScanGen.line] in Hl1.
  destruct (run_to_frame lg wf 499 l1 Hl1) as (n2 & Hn2 & Hreach).
  { change (2 ^ VScanGen.line_width) with 1024. rewrite vtotal_value. lia. }
  exists (n1 + n2)%nat. split; [lia|].
  rewrite run_app, Hrun1. exact Hreach.
Qed.

Lemma recovers_from_any_registers_witness :
  LineGen.well_formed mister_linegen
  /\ 0 <= 1000 < 2 ^ LineGen.pixel_width mister_linegen
  /\ 0 <= 600 < 2 ^ VScanGen.line_width
  /\ exists n,
      Z.of_nat n <= 2 ^ LineGen.pixel_width mister_linegen + 500 * 800
      /\ VGA.reachable mister_linegen
           (VGA.run mister_linegen n
              {| VGA.linegen_state :=
                   {| LineGen.pixel := 1000; LineGen.block_pixel := 3;
                      LineGen.block := 11 |};
                 VGA.vgen_state := {| VScanGen.line := 600 |} |}).
Proof.
  assert (wf : LineGen.well_formed mister_linegen)
    by well_formed_by_evaluation.
  assert (Hp : 0 <= 1000 < 2 ^ LineGen.pixel_width mister_linegen)
    by (vm_compute; split; [discriminate|reflexivity]).
  assert (Hl : 0 <= 600 < 2 ^ VScanGen.line_width)
    by (vm_compute; split; [discriminate|reflexivity]).
  split; [exact wf|]. split; [exact Hp|]. split; [exact Hl|].
  exact (recovers_from_any_registers mister_linegen
           {| VGA.linegen_state :=
                {| LineGen.pixel := 1000; LineGen.block_pixel := 3;
                   LineGen.block := 11 |};
              VGA.vgen_state := {| VScanGen.line := 600 |} |} wf Hp Hl).
Defined.

(** ** Refresh rate *)

(** X13. For every accepted clock the frame, [_htotal * VTOTAL] clock cycles
    long, is repeated between 59.9 and 60.7 times per second:
    [59.9 * (_htotal * VTOTAL) <= clk_freq <= 60.7 * (_htotal * VTOTAL)].
    The stretched line keeps the picture at the 60 Hz of the 640x480
    mode. *)
Theorem refresh_rate_near_60
        (res_name : string) (res_num : Z) (clk_freq : Q)
        (self : VGA.t) (vga : VGA.pins) :
  VGA.init res_name res_num clk_freq = Ok self ->
  ((599 # 10) * inject_Z (LineGen._htotal (VGA.linegen self vga) * VTOTAL)
   <= clk_freq)%Q
  /\ (clk_freq
      <= (607 # 10)
         * inject_Z (LineGen._htotal (VGA.linegen self vga) * VTOTAL))%Q.
Proof.
  intros Hinit. destruct (init_ok_ratio _ _ _ _ Hinit) as [Hr H1].
  pose proof (round_bounds (clk_freq / VGA.base_freq * inject_Z (10 ^ 4)))
    as Hb.
  pose proof (scaled_clock clk_freq) as Hy.
  pose proof (round_bounds (VGA._freq_ratio self * inject_Z HTOTAL)) as Ht.
  change (inject_Z HTOTAL) with 800%Q in Ht.
  assert (Hratio :
            (VGA._freq_ratio self
             == inject_Z (round (clk_freq / VGA.base_freq * inject_Z (10 ^ 4)))
                * (1 # 10000))%Q).
  { rewrite Hr. unfold round_ndigits.
    change (inject_Z (10 ^ 4)) with (10000 # 1)%Q. field. }
  set (y := (clk_freq / VGA.base_freq * inject_Z (10 ^ 4))%Q) in *.
  set (k := round y) in *.
  rewrite inject_Z_mult. change (inject_Z VTOTAL) with 525%Q.
  destruct (Qlt_le_dec (VGA._freq_ratio self) (101 # 100)) as [Hlt|Hge].
  - rewrite (linegen_below_gate self vga Hlt).
    change (inject_Z (LineGen._htotal (LineGen.init_default _ _ _)))
      with 800%Q.
    split; lra.
  - rewrite (linegen_above_gate self vga Hge).
    unfold LineGen.init. cbn [LineGen._htotal].
    change (inject_Z HTOTAL) with 800%Q.
    set (t := round (VGA._freq_ratio self * 800)) in *.
    set (b := round _). set (sy := round _). set (bk := round _).
    replace (8 * b + (t - (8 * b + sy + bk)) + sy + bk) with t
      by (clearbody t b sy bk; lia).
    split; lra.
Qed.

Lemma refresh_rate_near_60_witness :
  VGA.init "vga" 0 50400000
  = Ok {| VGA._res_name := "vga"; VGA._res_num := 0;
          VGA._freq_ratio := 20000 # 10000 |}
  /\ ((599 # 10) * inject_Z (1600 * 525) <= 50400000)%Q
  /\ (50400000 <= (607 # 10) * inject_Z (1600 * 525))%Q.
Proof.
  assert (Hinit : VGA.init "vga" 0 50400000
                  = Ok {| VGA._res_name := "vga"; VGA._res_num := 0;
                          VGA._freq_ratio := 20000 # 10000 |})
    by reflexivity.
  split; [exact Hinit|].
  exact (refresh_rate_near_60 "vga" 0 50400000 _ mister_vga Hinit).
Defined.

(** ** Half-brightness bands *)

Lemma bit6_band (l : Z) :
  0 <= l -> (Z.testbit l 6 = true <-> 64 <= l mod 128).
Proof.
  intros Hl.
  rewrite Z.testbit_odd, Z.shiftr_div_pow2 by lia.
  change (2 ^ 6) with 64.
  replace 128 with (64 * 2) by reflexivity.
  rewrite Z.rem_mul_r by lia.
  pose proof (Z.mod_pos_bound l 64 ltac:(lia)) as Hm.
  pose proof (Z.mod_pos_bound (l / 64) 2 ltac:(lia)) as Hq.
  rewrite (Zmod_odd (l / 64)) in *.
  destruct (Z.odd (l / 64)); split; intros; (lia || congruence).
Qed.

(** X14. [halfbrite] is bit 6 of the line counter: it is high on the lines whose
    number modulo 128 is at least 64, so it toggles every 64 lines; of the
    480 visible lines, 224 are drawn at half brightness (lines 64-127,
    192-255, 320-383 and 448-479). *)
Theorem halfbrite_bands (v : VScanGen.state) :
  VScanGen.reachable v ->
  (VScanGen.halfbrite v = true <-> 64 <= VScanGen.line v mod 128)
  /\ VScanGen.halfbrite {| VScanGen.line := VScanGen.line v + 64 |}
     = negb (VScanGen.halfbrite v)
  /\ count_values
       (fun l => VScanGen.halfbrite {| VScanGen.line := l |}
                 && negb (VScanGen.vporch {| VScanGen.line := l |}))
       (Z.to_nat VTOTAL)
     = 224%nat.
Proof.
  intros Hreach. pose proof (line_in_range v Hreach) as Hl.
  unfold VScanGen.halfbrite. cbn [VScanGen.line].
  split; [apply bit6_band; lia|].
  split; [|reflexivity].
  pose proof (bit6_band (VScanGen.line v) ltac:(lia)) as Hb.
  pose proof (bit6_band (VScanGen.line v + 64) ltac:(lia)) as Hb'.
  assert (Hshift : (VScanGen.line v + 64) mod 128
                   = (VScanGen.line v mod 128 + 64) mod 128)
    by (rewrite Z.add_mod_idemp_l by lia; reflexivity).
  pose proof (Z.mod_pos_bound (VScanGen.line v) 128 ltac:(lia)) as Hm.
  rewrite Hshift in Hb'.
  destruct (Z.lt_ge_cases (VScanGen.line v mod 128) 64) as [Hlow|Hhigh].
  - rewrite Z.mod_small in Hb' by lia.
    destruct (Z.testbit (VScanGen.line v) 6);
      destruct (Z.testbit (VScanGen.line v + 64) 6);
      cbn [negb]; try reflexivity; exfalso; intuition lia.
  - assert (Hwrap : (VScanGen.line v mod 128 + 64) mod 128
                    = VScanGen.line v mod 128 - 64).
    { symmetry. apply Z.mod_unique with (q := 1); lia. }
    rewrite Hwrap in Hb'.
    destruct (Z.testbit (VScanGen.line v) 6);
      destruct (Z.testbit (VScanGen.line v + 64) 6);
      cbn [negb]; try reflexivity; exfalso; intuition lia.
Qed.

Lemma halfbrite_bands_witness :
  VScanGen.reachable (VScanGen.next true VScanGen.reset)
  /\ VScanGen.halfbrite
       {| VScanGen.line := VScanGen.line (VScanGen.next true VScanGen.reset)
                           + 64 |}
     = negb (VScanGen.halfbrite (VScanGen.next true VScanGen.reset)).
Proof.
  assert (Hr : VScanGen.reachable (VScanGen.next true VScanGen.reset))
    by (apply VScanGen.reach_next, VScanGen.reach_reset).
  split; [exact Hr|].
  exact (proj1 (proj2 (halfbrite_bands _ Hr))).
Defined.
